(** * ZERNIPAX: the backend shim ([zernipax/backend.py])

    A shallow embedding of the backend-selection module of ZERNIPAX and of
    the control-flow, array and decorator shims it exports, followed by the
    properties of these shims.

    The Python module has two mutually exclusive halves, chosen by
    [use_jax]: the names bound when JAX was imported (module [Jax] below)
    and the NumPy fall-backs (module [Fallback]).  What both halves borrow
    from NumPy (clipping, [arange], n-dimensional arrays with their shape
    and row-major buffer, broadcasting, [stack], [sign], [where]) is module
    [Np]; the few rules of Python itself that the shims rely on (exceptions,
    sequence indexing, binding of call arguments) are module [Py]. *)

From Stdlib Require Import ZArith List Bool Lia.
From Stdlib Require Import Floats.SpecFloat.
From stdpp Require Import base option list gmap strings.

Local Open Scope Z_scope.

(** ** Python: exceptions, computations, indexing, argument binding *)

Module Py.

(** The exception classes that the modelled code can meet. *)
Inductive exn : Type :=
| IndexError
| ValueError
| TypeError
| AxisError
| ImportError
| ModuleNotFoundError
| RuntimeError
| UserWarning.

#[global] Instance exn_eq_dec : EqDecision exn.
Proof. solve_decision. Defined.

(** [isinstance(e, ModuleNotFoundError)]: the class has no subclass among
    the ones above ([ImportError] is its parent, not its child). *)
Definition is_ModuleNotFoundError (e : exn) : bool :=
  match e with ModuleNotFoundError => true | _ => false end.

(** A call either returns a value or raises. *)
Inductive result (A : Type) : Type :=
| Ok (a : A)
| Raise (e : exn).
Arguments Ok {A} a.
Arguments Raise {A} e.

#[global] Instance result_ret : MRet result := fun _ a => Ok a.
#[global] Instance result_bind : MBind result := fun _ _ f r =>
  match r with Ok a => f a | Raise e => Raise e end.

(** A Python computation over a world [W] (everything a callee may read
    or mutate): it returns or raises, and leaves a world behind. *)
Definition M (W A : Type) : Type := W -> result A * W.

#[global] Instance M_ret {W} : MRet (M W) := fun _ a w => (Ok a, w).
#[global] Instance M_bind {W} : MBind (M W) := fun _ _ f c w =>
  match c w with
  | (Ok a, w') => f a w'
  | (Raise e, w') => (Raise e, w')
  end.

Definition raise {W A} (e : exn) : M W A := fun w => (Raise e, w).
Definition lift {W A} (r : result A) : M W A := fun w => (r, w).
Definition get_world {W} : M W W := fun w => (Ok w, w).
Definition set_world {W} (w : W) : M W unit := fun _ => (Ok tt, w).

(** A function without effects, as a callable. *)
Definition pure_fun {W X Y} (f : X -> Y) : X -> M W Y := fun x => mret (f x).

(** [len(l)] *)
Definition len {A} (l : list A) : Z := Z.of_nat (length l).

(** [l[i]] on a list or tuple: a negative index counts from the end, and
    an index outside [-len(l), len(l)) raises [IndexError]. *)
Definition getitem {A} (l : list A) (i : Z) : result A :=
  let j := if i <? 0 then i + len l else i in
  if (j <? 0) || (len l <=? j) then Raise IndexError
  else match l !! Z.to_nat j with
       | Some x => Ok x
       | None => Raise IndexError
       end.

(** A list comprehension [[f(x) for x in xs]]: the calls run in order, and
    the first one that raises ends the comprehension. *)
Fixpoint comprehension {W X Y} (f : X -> M W Y) (xs : list X) : M W (list Y) :=
  match xs with
  | [] => mret []
  | x :: rest => y ← f x; ys ← comprehension f rest; mret (y :: ys)
  end.

(** [for i in xs: val = body(i, val)] *)
Fixpoint for_loop {W X A} (xs : list X) (body : X -> A -> M W A) (val : A) : M W A :=
  match xs with
  | [] => mret val
  | i :: rest => val' ← body i val; for_loop rest body val'
  end.

(** Keyword arguments of a call, in the order written. *)
Definition kwargs (V : Type) : Type := list (string * V).

Definition kw_lookup {V} (name : string) (kw : kwargs V) : option V :=
  snd <$> List.find (fun p => String.eqb (fst p) name) kw.

Definition kw_remove {V} (name : string) (kw : kwargs V) : kwargs V :=
  List.filter (fun p => negb (String.eqb (fst p) name)) kw.

(** Binding of a call's arguments to a signature whose only named
    parameter is [func], optionally followed by [*args] and [**kwargs]:
    [func] takes the first positional argument, or else the keyword
    [func]; two values for it, no value for it, or surplus arguments with
    no [*args] / [**kwargs] to collect them, raise [TypeError]. *)
Definition bind_func {V} (star_args star_kwargs : bool)
    (args : list V) (kw : kwargs V) : result V :=
  match args with
  | f :: rest =>
      if bool_decide (is_Some (kw_lookup "func" kw)) then Raise TypeError
      else if negb star_args && negb (bool_decide (rest = [])) then Raise TypeError
      else if negb star_kwargs && negb (bool_decide (kw = [])) then Raise TypeError
      else Ok f
  | [] =>
      match kw_lookup "func" kw with
      | None => Raise TypeError
      | Some f =>
          if negb star_kwargs && negb (bool_decide (kw_remove "func" kw = []))
          then Raise TypeError
          else Ok f
      end
  end.

End Py.
Export Py.

(** ** NumPy: integer helpers *)

Module Np.

(** [np.clip(a, a_min, a_max)] on integers, which NumPy defines as
    [minimum(a_max, maximum(a, a_min))]. *)
Definition clip (a a_min a_max : Z) : Z := Z.min a_max (Z.max a a_min).

(** [np.arange(start, stop)] on integers: [start, start+1, ..., stop-1],
    empty when [stop <= start]. *)
Definition arange (start stop : Z) : list Z :=
  (fun k : nat => start + Z.of_nat k) <$> seq 0 (Z.to_nat (stop - start)).

(** *** Scalars

    What the shims ask of an array's element type: conversion of a Python
    [int] (a "weak" scalar takes the array's dtype), the arithmetic and
    comparisons of the dtype, and [np.sign] on one element. *)
Class Scalar (T : Type) : Type := {
  of_int : Z -> T;
  add : T -> T -> T;
  mul : T -> T -> T;
  eqb : T -> T -> bool;
  ltb : T -> T -> bool;
  leb : T -> T -> bool;
  sgn : T -> T
}.

(** An integer dtype, on values that do not overflow it. *)
#[global] Instance int_scalar : Scalar Z := {|
  of_int z := z;
  add := Z.add;
  mul := Z.mul;
  eqb := Z.eqb;
  ltb := Z.ltb;
  leb := Z.leb;
  sgn := Z.sgn
|}.

(** [float64]: IEEE 754 binary64, with NaN, infinities and signed zeros. *)
Definition float64 : Type := spec_float.
Definition prec64 : Z := 53.
Definition emax64 : Z := 1024.

Definition float64_of_int (z : Z) : float64 :=
  binary_normalize prec64 emax64 z 0 false.

(** NumPy's loop for [sign] on floats:
    [x > 0 ? 1 : (x < 0 ? -1 : (x == 0 ? 0 : x))], the last case being NaN. *)
Definition float64_sign (x : float64) : float64 :=
  if SFltb (float64_of_int 0) x then float64_of_int 1
  else if SFltb x (float64_of_int 0) then float64_of_int (-1)
  else if SFeqb x (float64_of_int 0) then float64_of_int 0
  else x.

#[global] Instance float64_scalar : Scalar float64 := {|
  of_int := float64_of_int;
  add := SFadd prec64 emax64;
  mul := SFmul prec64 emax64;
  eqb := SFeqb;
  ltb := SFltb;
  leb := SFleb;
  sgn := float64_sign
|}.

(** The [float64] values other than NaN and the infinities. *)
Definition float64_finite (v : float64) : bool :=
  match v with
  | S754_zero _ | S754_finite _ _ _ => true
  | S754_infinity _ | S754_nan => false
  end.

(** Two [float64] values that are the same, or are both zeros (of either
    sign). *)
Definition float64_same (u v : float64) : Prop :=
  u = v \/ exists s s', u = S754_zero s /\ v = S754_zero s'.

(** The dtypes whose arithmetic is exact around zero: [0 * v] is zero and
    [v + 0] is [v].  Integers are; floats are not ([0 * inf] is NaN). *)
Class ExactScalar (T : Type) `{!Scalar T} : Prop := {
  mul_zero_l : forall v : T, mul (of_int 0) v = of_int 0;
  add_zero_r : forall v : T, add v (of_int 0) = v
}.

(** Every dtype has a zero. *)
#[global] Instance scalar_inhabited {T} `{!Scalar T} : Inhabited T | 100 :=
  populate (of_int 0).

(** *** n-dimensional arrays

    An array is its shape and its buffer in row-major (C) order; it is
    well formed when the buffer holds as many elements as the shape
    says.  A 0-d array (a scalar) has the empty shape and one element. *)
Record ndarray (T : Type) : Type := mk_ndarray {
  shape : list nat;
  data : list T
}.
Arguments mk_ndarray {T} shape data.
Arguments shape {T} _.
Arguments data {T} _.

(** Number of elements of a shape. *)
Definition size (s : list nat) : nat := foldr Nat.mul 1%nat s.

Definition ndim {T} (a : ndarray T) : nat := length (shape a).

Definition wf {T} (a : ndarray T) : Prop := length (data a) = size (shape a).

(** Row-major offset of a multi-index, and the multi-index of an offset. *)
Fixpoint ravel (s idx : list nat) : nat :=
  match s, idx with
  | _ :: s', i :: idx' => (i * size s' + ravel s' idx')%nat
  | _, _ => 0%nat
  end.

Fixpoint unravel (s : list nat) (k : nat) : list nat :=
  match s with
  | [] => []
  | _ :: s' => (k / size s')%nat :: unravel s' (k mod size s')%nat
  end.

(** Broadcasting: shapes are aligned on their last axes; two aligned
    extents agree when they are equal or one of them is 1. *)
Definition bdim (d1 d2 : nat) : option nat :=
  if (d1 =? d2)%nat then Some d1
  else if (d1 =? 1)%nat then Some d2
  else if (d2 =? 1)%nat then Some d1
  else None.

Fixpoint bshape_rev (r1 r2 : list nat) : option (list nat) :=
  match r1, r2 with
  | [], r => Some r
  | r, [] => Some r
  | d1 :: t1, d2 :: t2 =>
      d ← bdim d1 d2; t ← bshape_rev t1 t2; Some (d :: t)
  end.

Definition broadcast_shapes (s1 s2 : list nat) : option (list nat) :=
  reverse <$> bshape_rev (reverse s1) (reverse s2).

(** The multi-index read in an array of shape [src] for the position
    [idx] of the broadcast result: the leading axes that [src] lacks are
    dropped, and an axis of extent 1 is always read at 0. *)
Definition bindex (src idx : list nat) : list nat :=
  zip_with (fun d i => if (d =? 1)%nat then 0%nat else i)
           src (drop (length idx - length src) idx).

Section Arrays.
Context {T : Type} `{!Inhabited T}.

(** Element at a multi-index. *)
Definition item (a : ndarray T) (idx : list nat) : T :=
  data a !!! ravel (shape a) idx.

Definition broadcast_to (a : ndarray T) (s : list nat) : ndarray T :=
  mk_ndarray s
    ((fun k => item a (bindex (shape a) (unravel s k))) <$> seq 0 (size s)).

(** A binary ufunc. *)
Definition ufunc2 {U} (f : T -> T -> U) (a b : ndarray T) : result (ndarray U) :=
  match broadcast_shapes (shape a) (shape b) with
  | None => Raise ValueError
  | Some s =>
      Ok (mk_ndarray s
            (zip_with f (data (broadcast_to a s)) (data (broadcast_to b s))))
  end.

(** A unary ufunc. *)
Definition ufunc1 {U} (f : T -> U) (a : ndarray T) : ndarray U :=
  mk_ndarray (shape a) (f <$> data a).

(** [a.T]: the axes reversed. *)
Definition transpose (a : ndarray T) : ndarray T :=
  let s := reverse (shape a) in
  mk_ndarray s ((fun k => item a (reverse (unravel s k))) <$> seq 0 (size s)).

(** [np.atleast_1d(a)]: a 0-d array becomes a 1-d array of one element. *)
Definition atleast_1d (a : ndarray T) : ndarray T :=
  match shape a with
  | [] => mk_ndarray [1%nat] (data a)
  | _ => a
  end.

(** [normalize_axis_index(axis, ndim)] *)
Definition normalize_axis_index (axis : Z) (nd : nat) : result nat :=
  if (axis <? - Z.of_nat nd) || (Z.of_nat nd <=? axis) then Raise AxisError
  else Ok (Z.to_nat (if axis <? 0 then axis + Z.of_nat nd else axis)).

Definition same_shape (a b : ndarray T) : bool :=
  bool_decide (shape a = shape b).

(** [np.stack(arrays, axis)]: at least one array, all of one shape; the
    new axis, of extent [len(arrays)], is inserted at [axis] among the
    axes of the result.  Before the new axis the result is indexed like
    the inputs ([outer] positions); at each of them the inputs follow
    one another, each with its [inner] elements at that position. *)
Definition stack (arrays : list (ndarray T)) (axis : Z) : result (ndarray T) :=
  match arrays with
  | [] => Raise ValueError
  | a0 :: _ =>
      if forallb (same_shape a0) arrays then
        ax ← normalize_axis_index axis (S (ndim a0));
        let outer := size (take ax (shape a0)) in
        let inner := size (drop ax (shape a0)) in
        Ok (mk_ndarray
              (take ax (shape a0) ++ length arrays :: drop ax (shape a0))
              (flat_map (fun o =>
                 flat_map (fun a => take inner (drop (o * inner) (data a))) arrays)
                 (seq 0 outer)))
      else Raise ValueError
  end.

(** Well-formed arrays of one shape [s]. *)
Definition all_of_shape (s : list nat) (arrays : list (ndarray T)) : Prop :=
  Forall (fun a => shape a = s /\ wf a) arrays.

(** [np.take(a, i, axis)]: the [i]-th slice of [a] along [axis]. *)
Definition take_along (a : ndarray T) (i : nat) (ax : nat) : ndarray T :=
  let outer := size (take ax (shape a)) in
  let n := nth ax (shape a) 0%nat in
  let inner := size (drop (S ax) (shape a)) in
  mk_ndarray
    (take ax (shape a) ++ drop (S ax) (shape a))
    (flat_map (fun o => take inner (drop ((o * n + i) * inner) (data a)))
              (seq 0 outer)).

End Arrays.

Section ScalarArrays.
Context {T : Type} `{!Scalar T}.

(** [a == c] for a Python integer [c] *)
Definition eq_int (a : ndarray T) (c : Z) : ndarray bool :=
  ufunc1 (fun v => eqb v (of_int c)) a.

(** [np.sign(a)] *)
Definition sign (a : ndarray T) : ndarray T := ufunc1 sgn a.

(** [np.where(c, x, y)] with a Python integer [x] and an array [y];
    the three operands are broadcast together. *)
Definition where_int (c : ndarray bool) (x : Z) (y : ndarray T) : result (ndarray T) :=
  match broadcast_shapes (shape c) (shape y) with
  | None => Raise ValueError
  | Some s =>
      Ok (mk_ndarray s
            (zip_with (fun (b : bool) v => if b then of_int x else v)
               (data (broadcast_to c s)) (data (broadcast_to y s))))
  end.

(** [c * a] for a Python integer [c] *)
Definition int_times (c : Z) (a : ndarray T) : ndarray T :=
  ufunc1 (mul (of_int c)) a.

(** [a * b] and [a + b] *)
Definition multiply (a b : ndarray T) : result (ndarray T) := ufunc2 mul a b.
Definition plus (a b : ndarray T) : result (ndarray T) := ufunc2 add a b.

End ScalarArrays.

(** *** Arrays as mutable objects

    For indexed assignment an array is seen along its first axis, as the
    list of its items (the scalars of a 1-d array, the rows of a 2-d
    one).  A NumPy array is an object of the heap, named by a reference
    and mutated in place; a JAX array is an immutable value; a Python
    list or tuple passed as array-like is read only. *)
Definition loc : Type := positive.

Inductive array_like (T : Type) : Type :=
| NumpyArray (l : loc)
| JaxArray (a : list T)
| Sequence (a : list T).
Arguments NumpyArray {T} l.
Arguments JaxArray {T} a.
Arguments Sequence {T} a.

(** The values of an indexed assignment: one item, or a sequence. *)
Inductive values (T : Type) : Type :=
| One (v : T)
| Many (vs : list T).
Arguments One {T} v.
Arguments Many {T} vs.

(** An index into [n] items: a negative one counts from the end; [None]
    when it falls outside [-n, n). *)
Definition norm_index (n : nat) (i : Z) : option nat :=
  let j := if i <? 0 then i + Z.of_nat n else i in
  if (j <? 0) || (Z.of_nat n <=? j) then None else Some (Z.to_nat j).

(** The values broadcast against [k] indices: one item (alone or in a
    sequence of length 1) is repeated; otherwise the lengths must agree. *)
Definition broadcast_values {T} (k : nat) (vals : values T) : option (list T) :=
  match vals with
  | One v => Some (replicate k v)
  | Many [v] => Some (replicate k v)
  | Many vs => if (length vs =? k)%nat then Some vs else None
  end.

(** The assignments run in the order of the indices. *)
Definition assign {T} (a : list T) (pos : list nat) (vs : list T) : list T :=
  foldl (fun acc pv => <[pv.1 := pv.2]> acc) a (zip pos vs).

(** [a[inds] = vals] on the items of a NumPy array: the values must
    broadcast against the indices ([ValueError]), which is checked first,
    and every index must be in bounds ([IndexError]); nothing is written
    otherwise. *)
Definition setitem_items {T} (a : list T) (inds : list Z) (vals : values T)
    : result (list T) :=
  match broadcast_values (length inds) vals with
  | None => Raise ValueError
  | Some vs =>
      match mapM (norm_index (length a)) inds with
      | None => Raise IndexError
      | Some pos => Ok (assign a pos vs)
      end
  end.

(** [arr[inds] = vals], on the heap.  JAX arrays do not support item
    assignment, and a list does not take a list of indices: [TypeError].
    (A reference always names an object; for one that names none the
    embedding answers [RuntimeError].) *)
Definition setitem {T} (arr : array_like T) (inds : list Z) (vals : values T)
    : M (gmap loc (list T)) unit :=
  match arr with
  | NumpyArray l =>
      h ← get_world;
      match h !! l with
      | None => raise RuntimeError
      | Some a =>
          a' ← lift (setitem_items a inds vals);
          set_world (<[l := a']> h)
      end
  | JaxArray _ => raise TypeError
  | Sequence _ => raise TypeError
  end.

End Np.

(** ** JAX's array interface

    [jax.numpy] mirrors NumPy: the functions that the JAX half of the
    module takes from [jnp] are the ones of [Np].  What JAX adds is the
    functional update of an immutable array. *)

Module Jnp.

(** [jnp.asarray(arr)] on something that is not a NumPy array. *)
Definition asarray {T} (a : list T) : list T := a.

(** The positions of a scatter: negative indices count from the end, and
    an update whose index is out of bounds is dropped. *)
Definition scatter_pairs {T} (n : nat) (inds : list Z) (vs : list T)
    : list (nat * T) :=
  omap (fun iv => (fun p => (p, iv.2)) <$> Np.norm_index n iv.1) (zip inds vs).

(** [a.at[inds].set(vals)]: a new array.  With no index there is nothing
    to scatter and the array is returned as it is, whatever the values;
    otherwise the values must broadcast against the indices. *)
Definition at_set {T} (a : list T) (inds : list Z) (vals : Np.values T)
    : result (list T) :=
  match inds with
  | [] => Ok a
  | _ :: _ =>
      match Np.broadcast_values (length inds) vals with
      | None => Raise ValueError
      | Some vs =>
          Ok (foldl (fun acc pv => <[pv.1 := pv.2]> acc) a
                (scatter_pairs (length a) inds vs))
      end
  end.

(** Arithmetic on JAX arrays computes what NumPy's computes, and operands
    whose shapes do not broadcast are refused with [TypeError]. *)
Definition shape_error {A} (r : result A) : result A :=
  match r with
  | Ok a => Ok a
  | Raise _ => Raise TypeError
  end.

Definition multiply {T} `{!Np.Scalar T} (a b : Np.ndarray T)
    : result (Np.ndarray T) :=
  shape_error (Np.multiply a b).

Definition plus {T} `{!Np.Scalar T} (a b : Np.ndarray T)
    : result (Np.ndarray T) :=
  shape_error (Np.plus a b).

End Jnp.

(** ** The NumPy half of the module ([use_jax = False]) *)

Module Fallback.

(** *** Decorators

    [jit = lambda func, *args, **kwargs: func],
    [custom_jvp_with_jit = lambda func, *args, **kwargs: func] and
    [execute_on_cpu = lambda func: func], as calls with positional and
    keyword arguments over any type [V] of Python values: each returns
    the value bound to its parameter [func]. *)
Section Decorators.
Context {V : Type}.

Definition jit (args : list V) (kw : kwargs V) : result V :=
  bind_func true true args kw.

Definition custom_jvp_with_jit (args : list V) (kw : kwargs V) : result V :=
  bind_func true true args kw.

Definition execute_on_cpu (args : list V) (kw : kwargs V) : result V :=
  bind_func false false args kw.
End Decorators.

(** *** Control flow

    Branch and body functions are Python callables: they may raise and
    may act on the world [W]. *)
Section ControlFlow.
Context {W : Type}.

Definition fori_loop {A} (lower upper : Z) (body_fun : Z -> A -> M W A)
    (init_val : A) : M W A :=
  let val := init_val in
  for_loop (Np.arange lower upper) body_fun val.

(** [*operand] is the tuple of the remaining arguments, of type [A]. *)
Definition cond {A B} (pred : bool) (true_fun false_fun : A -> M W B)
    (operand : A) : M W B :=
  if pred then true_fun operand else false_fun operand.

Definition switch {A B} (index : Z) (branches : list (A -> M W B))
    (operand : A) : M W B :=
  let index := Np.clip index 0 (len branches - 1) in
  branch ← lift (getitem branches index);
  branch operand.

(** The loop runs for as long as [cond_fun] holds; [fuel] bounds the
    number of iterations that the embedding follows, and [None] says
    that the bound was reached. *)
Fixpoint while_loop {A} (fuel : nat) (cond_fun : A -> M W bool)
    (body_fun : A -> M W A) (init_val : A) : M W (option A) :=
  match fuel with
  | O => mret None
  | S fuel' =>
      go_on ← cond_fun init_val;
      if go_on : bool
      then val ← body_fun init_val; while_loop fuel' cond_fun body_fun val
      else mret (Some init_val)
  end.

End ControlFlow.

(** *** Array shims *)

(** [arr[inds] = vals; return arr]: the array is mutated in place and
    the same object is returned. *)
Definition put {T} (arr : Np.array_like T) (inds : list Z) (vals : Np.values T)
    : M (gmap Np.loc (list T)) (Np.array_like T) :=
  _ ← Np.setitem arr inds vals;
  mret arr.

Definition sign {T} `{!Np.Scalar T} (x : Np.ndarray T) : result (Np.ndarray T) :=
  let x := Np.atleast_1d x in
  y ← Np.where_int (Np.eq_int x 0) 1 (Np.sign x);
  mret y.

(** [vmap(fun, out_axes)] returns [fun_vmap]. *)
Definition vmap {W X T} (fun_ : X -> M W (Np.ndarray T)) (out_axes : Z)
    : list X -> M W (Np.ndarray T) :=
  fun fun_inputs =>
    outs ← comprehension fun_ fun_inputs;
    lift (Np.stack outs out_axes).

(** The default [out_axes=0]. *)
Definition vmap0 {W X T} (fun_ : X -> M W (Np.ndarray T))
    : list X -> M W (Np.ndarray T) :=
  vmap fun_ 0.

(** Instrumentation: the same callable, counting its calls in the world. *)
Definition counted {W X A} (body : X -> A -> M W A) : X -> A -> M (nat * W) A :=
  fun i val nw =>
    let '(r, w') := body i val (snd nw) in (r, (S (fst nw), w')).

(** Instrumentation: the same callable, recording the first argument of
    each call, in order. *)
Definition traced {W X A} (body : X -> A -> M W A) : X -> A -> M (list X * W) A :=
  fun i val lw =>
    let '(r, w') := body i val (snd lw) in (r, (fst lw ++ [i], w')).

(** *** [custom_jvp] without JAX

    A function is an object with attributes.  The two attributes that the
    shim sets are callables that take anything and return [None]; an
    attribute of any other kind is a value of [V]. *)
Inductive attribute (V : Type) : Type :=
| returns_None
| other_attribute (v : V).
Arguments returns_None {V}.
Arguments other_attribute {V} v.

(** [obj.name = value] *)
Definition setattr {V} (obj : Np.loc) (name : string) (value : attribute V)
    : M (gmap Np.loc (gmap string (attribute V))) unit :=
  h ← get_world;
  match h !! obj with
  | None => raise RuntimeError
  | Some attrs => set_world (<[obj := <[name := value]> attrs]> h)
  end.

(** A call of an attribute, with any arguments: the ones set by the shim
    return [None]; a value of [V] is not callable. *)
Definition call_attribute {V} (a : attribute V) (args : list V) (kw : kwargs V)
    : result (option V) :=
  match a with
  | returns_None => Ok None
  | other_attribute _ => Raise TypeError
  end.

Definition custom_jvp {V} (fun_ : Np.loc) (args : list V) (kw : kwargs V)
    : M (gmap Np.loc (gmap string (attribute V))) Np.loc :=
  _ ← setattr fun_ "defjvp" returns_None;
  _ ← setattr fun_ "defjvps" returns_None;
  mret fun_.

End Fallback.

(** ** The JAX half of the module ([use_jax = True]) *)

Module Jax.

(** [jax.jit(f, static_argnums=...)]: the compiled function computes what
    [f] computes. *)
Definition jit {F : Type} (f : F) (static_argnums : list nat) : F := f.

(** A NumPy array is written in place; anything else becomes a JAX array
    that is updated functionally. *)
Definition put {T} (arr : Np.array_like T) (inds : list Z) (vals : Np.values T)
    : M (gmap Np.loc (list T)) (Np.array_like T) :=
  match arr with
  | Np.NumpyArray _ =>
      _ ← Np.setitem arr inds vals;
      mret arr
  | Np.JaxArray a | Np.Sequence a =>
      a' ← lift (Jnp.at_set (Jnp.asarray a) inds vals);
      mret (Np.JaxArray a')
  end.

Definition sign {T} `{!Np.Scalar T} (x : Np.ndarray T) : result (Np.ndarray T) :=
  let x := Np.atleast_1d x in
  y ← Np.where_int (Np.eq_int x 0) 1 (Np.sign x);
  mret y.

(** *** [execute_on_cpu]

    JAX keeps its default device in a configuration option with two
    values: the global one, which [jax.config.update] sets ([None]: no
    preference), and one local to the running thread, which is set for the
    time of a [with jax.default_device(d)] block ([None]: no block is
    open).  The thread-local value, when there is one, is the one in
    force.  The world of a JAX computation is that option and the rest
    [W]. *)
Inductive device : Type :=
| CpuDevice (id : nat)
| GpuDevice (id : nat).

Record device_option : Type := mk_device_option {
  global_device : option device;
  local_device : option device
}.

Definition device_in_force (o : device_option) : option device :=
  match local_device o with
  | Some d => Some d
  | None => global_device o
  end.

(** [jax.devices("cpu")[0]] *)
Definition first_cpu : device := CpuDevice 0.

(** [with jax.default_device(d): body]: the thread-local value is [d]
    inside the block and is put back on the way out, whether [body]
    returns or raises; the global value is left as [body] leaves it. *)
Definition with_default_device {W A} (d : device)
    (body : M (device_option * W) A) : M (device_option * W) A :=
  fun w =>
    let '(r, w') :=
      body (mk_device_option (global_device (fst w)) (Some d), snd w) in
    (r, (mk_device_option (global_device (fst w')) (local_device (fst w)),
         snd w')).

(** The default device that a computation finds. *)
Definition current_default_device {W} : M (device_option * W) (option device) :=
  fun w => (Ok (device_in_force (fst w)), w).

(** [execute_on_cpu(func)] returns [wrapper]; [args] stands for
    [*args, **kwargs]. *)
Definition execute_on_cpu {W Args R} (func : Args -> M (device_option * W) R)
    : Args -> M (device_option * W) R :=
  fun args => with_default_device first_cpu (func args).

(** *** [custom_jvp_with_jit] *)
Section CustomJvp.
Context {T : Type} `{!Np.Scalar T}.

(** The decorated functions: [(r, l, m, dr)], [dr] a Python integer. *)
Definition radial : Type :=
  Np.ndarray T -> Np.ndarray T -> Np.ndarray T -> Z -> result (Np.ndarray T).

(** A [jax.custom_jvp] object: the function, and the derivative rule
    registered with [defjvp], which receives the non-differentiable
    argument first, then the primals and the tangents, and returns the
    primal output with its tangent. *)
Record custom_jvp : Type := mk_custom_jvp {
  call : radial;
  jvp : Z -> Np.ndarray T * Np.ndarray T * Np.ndarray T
          -> Np.ndarray T * Np.ndarray T * Np.ndarray T
          -> result (Np.ndarray T * Np.ndarray T)
}.

Definition custom_jvp_with_jit (func : radial) : custom_jvp :=
  let dummy : radial := fun r l m dr => func r l m dr in
  let _dummy_jvp nondiff_dr x xdot :=
    let '(r, l, m) := x in
    let '(rdot, ldot, mdot) := xdot in
    f ← dummy r l m nondiff_dr;
    df ← dummy r l m (nondiff_dr + 1);
    t ← Jnp.multiply (Np.transpose df) rdot;
    t ← Jnp.plus (Np.transpose t) (Np.int_times 0 ldot);
    t ← Jnp.plus t (Np.int_times 0 mdot);
    mret (f, t) in
  jit (mk_custom_jvp dummy _dummy_jvp) [3%nat].

End CustomJvp.

End Jax.

(** ** The module-level backend probe (lines 11-48 of [backend.py]) *)

Module Probe.

(** *** The [warnings] module

    A filter decides what [warnings.warn] does; [simplefilter] puts one
    in front of the others and it matches every warning.  With no filter
    a [UserWarning] is shown. *)
Inductive action : Type :=
| Ignore   (* "ignore": the warning is discarded *)
| Show     (* "default", "always", ...: the warning is printed *)
| Error.   (* "error": the warning is raised as an exception *)

(** Which array module the name [jnp] is bound to. *)
Inductive array_module : Type := jax_numpy | numpy.

(** What the module prints. *)
Inductive line : Type :=
| using_jax_backend
| using_numpy_backend
| using_device (device : option string) (avail_mem : option string).

(** The process state that the module reads and writes: the package's
    [config] dict, the warning filters, the warnings shown so far, the
    standard output, and the module's own global names. *)
Record state : Type := mk_state {
  config : gmap string string;
  filters : list action;
  shown : list string;
  stdout : list line;
  jnp : option array_module;
  use_jax : option bool
}.

Definition with_config (c : gmap string string) (st : state) : state :=
  mk_state c (filters st) (shown st) (stdout st) (jnp st) (use_jax st).
Definition with_filters (f : list action) (st : state) : state :=
  mk_state (config st) f (shown st) (stdout st) (jnp st) (use_jax st).
Definition with_shown (s : list string) (st : state) : state :=
  mk_state (config st) (filters st) s (stdout st) (jnp st) (use_jax st).
Definition with_stdout (o : list line) (st : state) : state :=
  mk_state (config st) (filters st) (shown st) o (jnp st) (use_jax st).
Definition with_jnp (m : array_module) (st : state) : state :=
  mk_state (config st) (filters st) (shown st) (stdout st) (Some m) (use_jax st).
Definition with_use_jax (b : bool) (st : state) : state :=
  mk_state (config st) (filters st) (shown st) (stdout st) (jnp st) (Some b).

Definition modify (f : state -> state) : M state unit := fun st => (Ok tt, f st).

Definition current_action (st : state) : action :=
  match filters st with
  | [] => Show
  | a :: _ => a
  end.

(** [warnings.simplefilter(a)] *)
Definition simplefilter (a : action) : M state unit :=
  modify (fun st => with_filters (a :: filters st) st).

(** [warnings.warn(msg)] *)
Definition warn (msg : string) : M state unit := fun st =>
  match current_action st with
  | Ignore => (Ok tt, st)
  | Show => (Ok tt, with_shown (shown st ++ [msg]) st)
  | Error => (Raise UserWarning, st)
  end.

(** [with warnings.catch_warnings(): body]: the filters are put back on
    the way out, whether [body] returns or raises. *)
Definition catch_warnings {A} (body : M state A) : M state A := fun st =>
  let '(r, st') := body st in (r, with_filters (filters st) st').

(** [try: body except <class>: handler] *)
Definition try_except {A} (body : M state A) (catches : exn -> bool)
    (handler : M state A) : M state A := fun st =>
  match body st with
  | (Raise e, st') => if catches e then handler st' else (Raise e, st')
  | returned => returned
  end.

Definition print (l : line) : M state unit :=
  modify (fun st => with_stdout (stdout st ++ [l]) st).

(** [config.get(key)] *)
Definition config_get (key : string) : M state (option string) :=
  fun st => (Ok (config st !! key), st).

(** *** The environment

    What the installation answers: for each statement that leaves the
    module, either nothing ([None]: it succeeds) or the exception that it
    raises; and for [jax.devices("gpu")] the number of devices found, or
    the exception raised. *)
Record env : Type := mk_env {
  import_jax : option exn;
  import_jax_numpy : option exn;
  import_jaxlib : option exn;
  import_jax_config : option exn;
  jax_config_update : option exn;
  jax_devices_gpu : result nat;
  jnp_linspace_exp : option exn
}.

(** A statement of the environment. *)
Definition external (outcome : option exn) : M state unit :=
  match outcome with
  | None => mret tt
  | Some e => raise e
  end.

Section ModuleLevel.
(** [zernipax.set_device] is defined in the package's [__init__.py]: it
    updates [config] for the device kind that it is given.  The module
    only calls it, so it stays a parameter here. *)
Variable set_device : string -> gmap string string -> gmap string string.

Definition call_set_device (kind : string) : M state unit :=
  modify (fun st => with_config (set_device kind (config st)) st).

(** Lines 11-12. *)
Definition default_device : M state unit :=
  device ← config_get "device";
  match device with
  | None => call_set_device "cpu"
  | Some _ => mret tt
  end.

(** Lines 22-27: [and] evaluates [jax.devices("gpu")] only when the
    configured kind is ["gpu"]. *)
Definition gpu_check (E : env) : M state unit :=
  kind ← config_get "kind";
  no_gpu ← (if bool_decide (kind = Some "gpu")
             then n ← lift (jax_devices_gpu E); mret (n =? 0)%nat
             else mret false);
  if no_gpu : bool then
    _ ← warn "JAX failed to detect GPU, are you sure you installed JAX with GPU support?";
    call_set_device "cpu"
  else mret tt.

(** Lines 14-29: the body of the [with] statement. *)
Definition with_body (E : env) : M state unit :=
  _ ← simplefilter Ignore;
  _ ← external (import_jax E);
  _ ← external (import_jax_numpy E);
  _ ← modify (with_jnp jax_numpy);
  _ ← external (import_jaxlib E);
  _ ← external (import_jax_config E);
  _ ← external (jax_config_update E);
  _ ← gpu_check E;
  external (jnp_linspace_exp E).

(** Lines 14-35: the [try] suite. *)
Definition try_suite (E : env) : M state unit :=
  _ ← catch_warnings (with_body E);
  _ ← modify (with_use_jax true);
  print using_jax_backend.

(** Lines 37-43: the [except ModuleNotFoundError] suite.  [linspace] and
    [exp] are NumPy's here and return; the message of the warning is
    the text that [colored] wraps in colour codes. *)
Definition except_suite : M state unit :=
  _ ← modify (with_jnp numpy);
  _ ← modify (with_use_jax false);
  _ ← call_set_device "cpu";
  _ ← warn "Failed to load JAX";
  print using_numpy_backend.

(** Lines 13-43. *)
Definition backend_probe (E : env) : M state unit :=
  try_except (try_suite E) is_ModuleNotFoundError except_suite.

(** Lines 11-48.  The last line formats the device with [{}], which takes
    anything, and the available memory with [{:.2f}], which takes a
    number: on [None] it raises [TypeError]. *)
Definition module_body (E : env) : M state unit :=
  _ ← default_device;
  _ ← backend_probe E;
  device ← config_get "device";
  avail_mem ← config_get "avail_mem";
  match avail_mem with
  | None => raise TypeError
  | Some _ => print (using_device device avail_mem)
  end.

End ModuleLevel.

End Probe.

(** An installation with JAX and no GPU device, asked for the GPU, under
    Python's default warning filters. *)
Definition jax_without_gpu : Probe.env :=
  Probe.mk_env None None None None None (Ok 0%nat) None.

Definition gpu_requested : Probe.state :=
  Probe.mk_state {[ "device" := "gpu"; "kind" := "gpu" ]} [] [] [] None None.

(** An installation without JAX. *)
Definition jax_missing : Probe.env :=
  Probe.mk_env (Some ModuleNotFoundError) None None None None (Raise RuntimeError) None.

Definition cpu_requested : Probe.state :=
  Probe.mk_state {[ "device" := "cpu"; "kind" := "cpu" ]} [] [] [] None None.

(** * Properties *)

(** ** Integer helpers *)

Lemma clip_range (a lo hi : Z) : lo <= hi -> lo <= Np.clip a lo hi <= hi.
Proof. unfold Np.clip. lia. Qed.

Lemma clip_below (a lo hi : Z) : lo <= hi -> a <= lo -> Np.clip a lo hi = lo.
Proof. unfold Np.clip. lia. Qed.

Lemma clip_above (a lo hi : Z) : lo <= hi -> hi <= a -> Np.clip a lo hi = hi.
Proof. unfold Np.clip. lia. Qed.

Lemma clip_inside (a lo hi : Z) : lo <= a <= hi -> Np.clip a lo hi = a.
Proof. unfold Np.clip. lia. Qed.

Lemma arange_length (start stop : Z) :
  length (Np.arange start stop) = Z.to_nat (stop - start).
Proof. unfold Np.arange. by rewrite length_fmap, length_seq. Qed.

Lemma arange_empty (start stop : Z) : stop <= start -> Np.arange start stop = [].
Proof.
  intros Hle. unfold Np.arange.
  replace (Z.to_nat (stop - start)) with 0%nat by lia. done.
Qed.

Lemma getitem_in_range {A} (l : list A) (i : Z) (x : A) :
  0 <= i -> l !! Z.to_nat i = Some x -> getitem l i = Ok x.
Proof.
  intros Hi Hx. unfold getitem, len.
  apply lookup_lt_Some in Hx as Hlt.
  destruct (Z.ltb_spec i 0); [lia|].
  destruct (Z.ltb_spec i 0); [lia|].
  destruct (Z.leb_spec (Z.of_nat (length l)) i); [lia|].
  by rewrite Hx.
Qed.

(** ** The control-flow shims *)

Section ControlFlowFacts.
Context {W A B : Type}.
Implicit Types (branches : list (A -> M W B)) (operand : A).

(** What [switch] does for any index once the branch list is non-empty:
    the branch at the clamped position runs on the operand. *)
Lemma switch_clamped index branches operand :
  branches <> [] ->
  exists branch,
    branches !! Z.to_nat (Np.clip index 0 (len branches - 1)) = Some branch /\
    Fallback.switch index branches operand = branch operand.
Proof.
  intros Hne.
  assert (0 < len branches) as Hlen.
  { unfold len. destruct branches; [done|]. simpl. lia. }
  pose proof (clip_range index 0 (len branches - 1) ltac:(lia)) as Hc.
  destruct (lookup_lt_is_Some_2 branches
              (Z.to_nat (Np.clip index 0 (len branches - 1)))) as [branch Hb].
  { unfold len in *. lia. }
  exists branch. split; [done|].
  unfold Fallback.switch. cbv zeta.
  rewrite (getitem_in_range _ _ _ (proj1 Hc) Hb). done.
Qed.

End ControlFlowFacts.

(** C1.  For every integer index and every non-empty sequence of branches,
    [switch] clamps the index into [0, len(branches) - 1] and returns what
    the branch at the clamped position returns on the operand.  In
    particular the index -1 runs the first branch and the index
    [len(branches)] runs the last one. *)
Theorem switch_clamps_index {W A B : Type} (index : Z)
    (branches : list (A -> M W B)) (operand : A) :
  branches <> [] ->
  let n := len branches in
  let k := if index <? 0 then 0 else if n - 1 <? index then n - 1 else index in
  0 <= k <= n - 1 /\
  (exists branch, branches !! Z.to_nat k = Some branch /\
     Fallback.switch index branches operand = branch operand) /\
  (exists first, head branches = Some first /\
     Fallback.switch (-1) branches operand = first operand) /\
  (exists final, last branches = Some final /\
     Fallback.switch n branches operand = final operand).
Proof.
  intros Hne n k.
  assert (0 < n) as Hn.
  { subst n. unfold len. destruct branches; [done|]. simpl. lia. }
  assert (k = Np.clip index 0 (n - 1)) as Hk.
  { subst k. unfold Np.clip.
    destruct (Z.ltb_spec index 0); [lia|].
    destruct (Z.ltb_spec (n - 1) index); lia. }
  split; [rewrite Hk; apply clip_range; lia|].
  split; [|split].
  - rewrite Hk. apply switch_clamped, Hne.
  - destruct (switch_clamped (-1) branches operand Hne) as (b & Hb & Hrun).
    fold n in Hb. rewrite clip_below in Hb by lia.
    exists b. split; [|done]. by rewrite head_lookup.
  - destruct (switch_clamped n branches operand Hne) as (b & Hb & Hrun).
    fold n in Hb. rewrite clip_above in Hb by lia.
    exists b. split; [|done]. rewrite last_lookup.
    replace (Init.Nat.pred (length branches)) with (Z.to_nat (n - 1)); [done|].
    subst n. unfold len. lia.
Qed.

Lemma switch_clamps_index_witness :
  let branches : list (Z -> M unit Z) :=
    [fun x => mret (x + 1); fun x => mret (x * 2); fun x => raise ValueError] in
  Fallback.switch (-1) branches 10 tt = (Ok 11, tt) /\
  Fallback.switch 7 branches 10 tt = (Raise ValueError, tt) /\
  exists first, head branches = Some first /\
     Fallback.switch (-1) branches 10 = first 10.
Proof.
  intros branches. split; [reflexivity|]. split; [reflexivity|].
  exact (proj1 (proj2 (proj2
    (switch_clamps_index (-1) branches 10 ltac:(discriminate))))).
Defined.

(** C3.  [cond] returns what [true_fun] returns on the operands when the
    predicate is true, and what [false_fun] returns on them when it is
    false. *)
Theorem cond_selects_branch {W A B : Type} (true_fun false_fun : A -> M W B)
    (operand : A) :
  Fallback.cond true true_fun false_fun operand = true_fun operand /\
  Fallback.cond false true_fun false_fun operand = false_fun operand.
Proof. split; reflexivity. Qed.

(** The counter of [counted] goes up by one at each call, whatever the
    call does. *)
Lemma counted_call {W X A : Type} (body : X -> A -> M W A) i val n w :
  snd (Fallback.counted body i val (n, w)) = (S n, snd (body i val w)).
Proof. unfold Fallback.counted. simpl. by destruct (body i val w). Qed.

(** Three iterations are three calls. *)
Example fori_loop_counts_calls :
  Fallback.fori_loop 2 5 (Fallback.counted (fun i val => mret (i + val))) 0 (0%nat, tt)
  = (Ok 9, (3%nat, tt)).
Proof. reflexivity. Qed.

Lemma fori_loop_no_iteration {W A : Type} (lower upper : Z)
    (body_fun : Z -> A -> M W A) (init_val : A) :
  upper <= lower ->
  Fallback.fori_loop lower upper body_fun init_val = mret init_val.
Proof.
  intros Hle. unfold Fallback.fori_loop. by rewrite arange_empty.
Qed.

(** C6.  With [lower == upper], [fori_loop] returns the initial value
    unchanged and does not call the body: the world is left as it was, and
    a body that counts its calls has counted none. *)
Theorem fori_loop_empty_range {W A : Type} (lower : Z)
    (body_fun : Z -> A -> M W A) (init_val : A) (w : W) (calls : nat) :
  Fallback.fori_loop lower lower body_fun init_val w = (Ok init_val, w) /\
  Fallback.fori_loop lower lower (Fallback.counted body_fun) init_val (calls, w)
  = (Ok init_val, (calls, w)).
Proof.
  split; rewrite fori_loop_no_iteration; done || lia.
Qed.

(** A loop whose condition fails at once returns its initial value, and a
    loop that counts down stops at zero. *)
Lemma while_loop_not_entered {W A : Type} (fuel : nat) (cond_fun : A -> M W bool)
    (body_fun : A -> M W A) (init_val : A) (w w' : W) :
  cond_fun init_val w = (Ok false, w') ->
  Fallback.while_loop (S fuel) cond_fun body_fun init_val w = (Ok (Some init_val), w').
Proof. intros Hc. simpl. unfold mbind, M_bind. by rewrite Hc. Qed.

Example while_loop_counts_down :
  Fallback.while_loop 10 (fun n : Z => mret (0 <? n)) (fun n => mret (n - 1)) 3 tt
  = (Ok (Some 0), tt).
Proof. reflexivity. Qed.

(** ** The decorators of the NumPy half *)

Section DecoratorFacts.
Context {V : Type}.
Implicit Types (func : V) (args : list V) (kw : kwargs V).

Lemma bind_func_positional star_kwargs func args kw :
  kw_lookup "func" kw = None ->
  (star_kwargs = false -> kw = []) ->
  bind_func true star_kwargs (func :: args) kw = Ok func.
Proof.
  intros Hkw Hnil. unfold bind_func. rewrite Hkw.
  rewrite bool_decide_eq_false_2 by (intros [? ?]; done).
  destruct star_kwargs; simpl; [done|].
  rewrite Hnil by done. done.
Qed.

Lemma execute_on_cpu_surplus func x args :
  Fallback.execute_on_cpu (func :: x :: args) [] = Raise TypeError.
Proof. reflexivity. Qed.

End DecoratorFacts.

(** C10, as the code has it.  In the NumPy half, [jit] and
    [custom_jvp_with_jit] return [func] itself for any further positional
    arguments and any keyword arguments (none of them binding [func] a
    second time); [execute_on_cpu], whose only parameter is [func], returns
    [func] itself when called with it alone. *)
Theorem fallback_decorators_return_func {V : Type} (func : V) (args : list V)
    (kw : kwargs V) :
  kw_lookup "func" kw = None ->
  Fallback.jit (func :: args) kw = Ok func /\
  Fallback.custom_jvp_with_jit (func :: args) kw = Ok func /\
  Fallback.execute_on_cpu [func] [] = Ok func.
Proof.
  intros Hkw. unfold Fallback.jit, Fallback.custom_jvp_with_jit.
  rewrite !bind_func_positional by done. done.
Qed.

Lemma fallback_decorators_return_func_witness :
  Fallback.jit ["f"; "static"] [("static_argnums", "3")] = Ok "f" /\
  Fallback.custom_jvp_with_jit ["f"; "static"] [("static_argnums", "3")] = Ok "f" /\
  Fallback.execute_on_cpu ["f"] [] = Ok "f".
Proof.
  exact (fallback_decorators_return_func "f" ["static"] [("static_argnums", "3")]
           eq_refl).
Defined.

(** C10 as stated fails for [execute_on_cpu]: it takes no extra argument,
    and a call that passes one, positional or keyword, raises [TypeError]
    instead of returning [func]. *)
Lemma execute_on_cpu_rejects_extra_arguments :
  Fallback.execute_on_cpu ["f"; "extra"] [] = Raise TypeError /\
  Fallback.execute_on_cpu ["f"] [("device", "cpu")] = Raise TypeError /\
  Fallback.jit ["f"; "extra"] [("device", "cpu")] = Ok "f".
Proof. repeat split. Qed.

(** ** Slices of lists *)

Section ListSlices.
Context {T : Type}.
Implicit Types (l : list T) (m n k : nat).

Lemma flat_map_ext_elem {X} (f g : X -> list T) (xs : list X) :
  (forall x, x ∈ xs -> f x = g x) -> flat_map f xs = flat_map g xs.
Proof.
  induction xs as [|x xs IH]; intros Hfg; simpl; [done|].
  rewrite Hfg by left. rewrite IH; [done|].
  intros y Hy. apply Hfg. by right.
Qed.

Lemma flat_map_seq_ext (f g : nat -> list T) n :
  (forall o, (o < n)%nat -> f o = g o) ->
  flat_map f (seq 0 n) = flat_map g (seq 0 n).
Proof.
  intros Hfg. apply flat_map_ext_elem. intros o Ho.
  apply elem_of_seq in Ho. apply Hfg. lia.
Qed.

Lemma flat_map_seq_S (f : nat -> list T) n :
  flat_map f (seq 0 (S n)) = flat_map f (seq 0 n) ++ f n.
Proof. rewrite seq_S, flat_map_app. simpl. by rewrite app_nil_r. Qed.

(** Consecutive chunks of [m] elements, put end to end. *)
Lemma chunks_concat l m k :
  flat_map (fun o => take m (drop (o * m) l)) (seq 0 k) = take (k * m) l.
Proof.
  induction k as [|k IH]; [done|].
  rewrite flat_map_seq_S, IH, take_take_drop. f_equal. lia.
Qed.

Lemma chunks_all l m k :
  length l = (k * m)%nat ->
  flat_map (fun o => take m (drop (o * m) l)) (seq 0 k) = l.
Proof. intros Hlen. rewrite chunks_concat. apply take_ge. lia. Qed.

(** In a concatenation of pieces of one length [m], the [j]-th stretch
    of [m] elements is the [j]-th piece. *)
Lemma uniform_pieces_length {X} (f : X -> list T) (xs : list X) m :
  (forall x, x ∈ xs -> length (f x) = m) ->
  length (flat_map f xs) = (length xs * m)%nat.
Proof.
  induction xs as [|x xs IH]; intros Hlen; simpl; [done|].
  rewrite length_app, Hlen by left. rewrite IH; [done|].
  intros y Hy. apply Hlen. by right.
Qed.

Lemma uniform_pieces_slice {X} (f : X -> list T) (xs : list X) m j x :
  (forall y, y ∈ xs -> length (f y) = m) ->
  xs !! j = Some x ->
  take m (drop (j * m) (flat_map f xs)) = f x.
Proof.
  revert j. induction xs as [|y xs IH]; intros j Hlen Hj; [done|].
  simpl. destruct j as [|j]; simpl in Hj.
  - inversion Hj; subst y. simpl. rewrite drop_0.
    apply take_app_length'. symmetry. apply Hlen. by left.
  - replace (S j * m)%nat with (length (f y) + j * m)%nat
      by (rewrite (Hlen y) by left; lia).
    rewrite drop_app_add. apply IH; [|done].
    intros z Hz. apply Hlen. by right.
Qed.

(** A stretch inside a block is a stretch of the whole list. *)
Lemma slice_in_block l x y a N :
  (y + a <= N)%nat ->
  take a (drop y (take N (drop x l))) = take a (drop (x + y) l).
Proof.
  intros Hle.
  replace N with (y + (N - y))%nat by lia.
  rewrite <- take_drop_commute, take_take, drop_drop.
  f_equal. lia.
Qed.

End ListSlices.

(** ** Shapes *)

Lemma size_app (s1 s2 : list nat) : Np.size (s1 ++ s2) = (Np.size s1 * Np.size s2)%nat.
Proof.
  unfold Np.size. induction s1 as [|d s1 IH]; simpl; [lia|].
  rewrite IH. lia.
Qed.

Lemma size_take_drop (s : list nat) (k : nat) :
  (Np.size (take k s) * Np.size (drop k s))%nat = Np.size s.
Proof. by rewrite <- size_app, take_drop. Qed.

Lemma normalize_axis_index_range (axis : Z) (nd ax : nat) :
  Np.normalize_axis_index axis nd = Ok ax -> (ax < nd)%nat.
Proof.
  unfold Np.normalize_axis_index.
  destruct (Z.ltb_spec axis (- Z.of_nat nd)); simpl; [done|].
  destruct (Z.leb_spec (Z.of_nat nd) axis); simpl; [done|].
  intros [= <-]. destruct (Z.ltb_spec axis 0); lia.
Qed.

Lemma normalize_axis_index_valid (axis : Z) (nd : nat) :
  - Z.of_nat nd <= axis < Z.of_nat nd ->
  Np.normalize_axis_index axis nd =
  Ok (Z.to_nat (if axis <? 0 then axis + Z.of_nat nd else axis)).
Proof.
  intros Hax. unfold Np.normalize_axis_index.
  destruct (Z.ltb_spec axis (- Z.of_nat nd)); [lia|].
  destruct (Z.leb_spec (Z.of_nat nd) axis); [lia|]. done.
Qed.

(** ** [np.stack] and its slices *)

Section StackFacts.
Context {T : Type}.
Implicit Types (a : Np.ndarray T) (arrays : list (Np.ndarray T)).

Lemma same_shape_all s a0 arrays :
  Np.shape a0 = s -> Np.all_of_shape s arrays ->
  forallb (Np.same_shape a0) arrays = true.
Proof.
  intros H0 Hall. apply forallb_forall. intros a Ha.
  apply list_elem_of_In in Ha.
  unfold Np.all_of_shape in Hall. rewrite Forall_forall in Hall.
  destruct (Hall a Ha) as [Hs _].
  unfold Np.same_shape. apply bool_decide_eq_true. congruence.
Qed.

(** The buffer of the stack, slice by slice. *)
Lemma stack_data_slice s arrays (ax i o : nat) a :
  Np.all_of_shape s arrays ->
  arrays !! i = Some a ->
  (o < Np.size (take ax s))%nat ->
  let inner := Np.size (drop ax s) in
  let n := length arrays in
  take inner
    (drop ((o * n + i) * inner)
       (flat_map (fun o' =>
          flat_map (fun a' => take inner (drop (o' * inner) (Np.data a'))) arrays)
          (seq 0 (Np.size (take ax s)))))
  = take inner (drop (o * inner) (Np.data a)).
Proof.
  intros Hall Hi Ho inner n.
  set (outer := Np.size (take ax s)) in *.
  set (chunk := fun o' a' => take inner (drop (o' * inner) (Np.data a'))).
  change (take inner
            (drop ((o * n + i) * inner)
               (flat_map (fun o' => flat_map (chunk o') arrays) (seq 0 outer)))
          = chunk o a).
  assert (forall o' a', (o' < outer)%nat -> a' ∈ arrays ->
            length (chunk o' a') = inner) as Hchunk.
  { intros o' a' Ho' Ha'. unfold chunk.
    unfold Np.all_of_shape in Hall. rewrite Forall_forall in Hall.
    destruct (Hall a' Ha') as [Hs Hwf]. unfold Np.wf in Hwf.
    rewrite Hs, <- (size_take_drop s ax) in Hwf. fold outer inner in Hwf.
    rewrite length_take, length_drop, Hwf. nia. }
  assert (forall o', (o' < outer)%nat ->
            length (flat_map (chunk o') arrays) = (n * inner)%nat) as Hblock.
  { intros o' Ho'. apply uniform_pieces_length. intros a' Ha'. by apply Hchunk. }
  assert (i < n)%nat as Hin by (by apply lookup_lt_Some in Hi).
  replace ((o * n + i) * inner)%nat with (o * (n * inner) + i * inner)%nat by lia.
  rewrite <- (slice_in_block _ _ _ _ (n * inner)) by nia.
  rewrite (uniform_pieces_slice (fun o' => flat_map (chunk o') arrays)
             (seq 0 outer) (n * inner) o o).
  - apply (uniform_pieces_slice (chunk o) arrays inner i a); [|done].
    intros a' Ha'. by apply Hchunk.
  - intros o' Ho'. apply elem_of_seq in Ho'. apply Hblock. lia.
  - by apply lookup_seq_lt.
Qed.

(** [np.stack] on a non-empty list of arrays of one shape, at a valid
    axis: the shape gains the number of arrays at that axis, and the
    slices along it are the arrays, in order. *)
Lemma stack_slices s a0 arrays (axis : Z) :
  Np.all_of_shape s (a0 :: arrays) ->
  - (len s + 1) <= axis <= len s ->
  let ax := Z.to_nat (if axis <? 0 then axis + (len s + 1) else axis) in
  exists r,
    Np.stack (a0 :: arrays) axis = Ok r /\
    Np.shape r = take ax s ++ S (length arrays) :: drop ax s /\
    nth ax (Np.shape r) 0%nat = S (length arrays) /\
    forall i a, (a0 :: arrays) !! i = Some a -> Np.take_along r i ax = a.
Proof.
  intros Hall Hax ax.
  assert (Np.shape a0 = s) as Hs0.
  { unfold Np.all_of_shape in Hall. by apply Forall_cons_1 in Hall as [[? _] _]. }
  assert (ax <= length s)%nat as Hle.
  { subst ax. unfold len in *. destruct (Z.ltb_spec axis 0); lia. }
  assert (length (take ax s) = ax) as Hlt by (rewrite length_take; lia).
  unfold Np.stack.
  rewrite (same_shape_all s) by done.
  rewrite normalize_axis_index_valid
    by (unfold Np.ndim, len in *; rewrite Hs0; lia).
  replace (Z.of_nat (S (Np.ndim a0))) with (len s + 1)
    by (unfold Np.ndim, len; rewrite Hs0; lia).
  fold ax. simpl. rewrite Hs0.
  eexists. split; [reflexivity|]. simpl.
  assert (nth ax (take ax s ++ S (length arrays) :: drop ax s) 0%nat
          = S (length arrays)) as Hnth.
  { rewrite <- Hlt at 1. apply nth_middle. }
  split; [done|]. split; [done|].
  intros i a Hi. unfold Np.take_along. simpl.
  rewrite Hnth.
  rewrite (take_app_length' (take ax s)) by done.
  rewrite cons_middle, app_assoc, drop_app_length'
    by (rewrite length_app; simpl; lia).
  rewrite take_drop.
  assert (a ∈ a0 :: arrays) as Ha by (by eapply list_elem_of_lookup_2).
  unfold Np.all_of_shape in Hall. rewrite Forall_forall in Hall.
  destruct (Hall a Ha) as [Hsa Hwf].
  destruct a as [sa da]. simpl in *. subst sa. f_equal.
  rewrite (flat_map_seq_ext _
             (fun o => take (Np.size (drop ax s)) (drop (o * Np.size (drop ax s)) da))).
  - apply chunks_all. unfold Np.wf in Hwf. simpl in Hwf.
    by rewrite Hwf, size_take_drop.
  - intros o Ho.
    apply (stack_data_slice s (a0 :: arrays) ax i o (Np.mk_ndarray s da));
      [by apply Forall_forall|done|done].
Qed.

End StackFacts.

(** [np.stack] on concrete arrays: two 2x2 matrices along each axis. *)
Example stack_two_matrices :
  let a := Np.mk_ndarray [2; 2]%nat [1; 2; 3; 4] in
  let b := Np.mk_ndarray [2; 2]%nat [5; 6; 7; 8] in
  Np.stack [a; b] 0 = Ok (Np.mk_ndarray [2; 2; 2]%nat [1; 2; 3; 4; 5; 6; 7; 8]) /\
  Np.stack [a; b] 1 = Ok (Np.mk_ndarray [2; 2; 2]%nat [1; 2; 5; 6; 3; 4; 7; 8]) /\
  Np.stack [a; b] (-1) = Ok (Np.mk_ndarray [2; 2; 2]%nat [1; 5; 2; 6; 3; 7; 4; 8]) /\
  Np.stack [a; b] 3 = Raise AxisError /\
  Np.take_along (Np.mk_ndarray [2; 2; 2]%nat [1; 2; 5; 6; 3; 4; 7; 8]) 1 1 = b.
Proof. repeat split. Qed.

(** ** The vectorised map *)

Section VmapFacts.
Context {W X T : Type}.

Lemma comprehension_pure (f : X -> Np.ndarray T) (xs : list X) (w : W) :
  comprehension (pure_fun f) xs w = (Ok (f <$> xs), w).
Proof.
  induction xs as [|x xs IH]; [done|].
  simpl. unfold mbind, M_bind in *. simpl. by rewrite IH.
Qed.

Lemma vmap_unfold (fun_ : X -> M W (Np.ndarray T)) out_axes xs w outs w' :
  comprehension fun_ xs w = (Ok outs, w') ->
  Fallback.vmap fun_ out_axes xs w = (Np.stack outs out_axes, w').
Proof. intros Hc. unfold Fallback.vmap, mbind, M_bind. by rewrite Hc. Qed.

End VmapFacts.

(** C5, as the code has it.  For a function [f], a non-empty sequence of
    [n] inputs on which [f] returns well-formed arrays of one shape [s],
    and an [out_axes] that names an axis of the result
    ([-(ndim+1) <= out_axes <= ndim]), the function returned by [vmap]
    returns an array whose axis [out_axes] has extent [n] and whose [i]-th
    slice along that axis is [f] of the [i]-th input. *)
Theorem vmap_stacks_results {W X T : Type} (f : X -> Np.ndarray T)
    (out_axes : Z) (fun_inputs : list X) (s : list nat) (w : W) :
  fun_inputs <> [] ->
  Np.all_of_shape s (f <$> fun_inputs) ->
  - (len s + 1) <= out_axes <= len s ->
  let ax := Z.to_nat (if out_axes <? 0 then out_axes + (len s + 1) else out_axes) in
  exists r,
    Fallback.vmap (pure_fun f) out_axes fun_inputs w = (Ok r, w) /\
    Np.shape r = take ax s ++ length fun_inputs :: drop ax s /\
    nth ax (Np.shape r) 0%nat = length fun_inputs /\
    forall i x, fun_inputs !! i = Some x -> Np.take_along r i ax = f x.
Proof.
  intros Hne Hall Hax ax.
  destruct fun_inputs as [|x0 xs]; [done|].
  rewrite fmap_cons in Hall.
  destruct (stack_slices s (f x0) (f <$> xs) out_axes Hall Hax)
    as (r & Hstack & Hshape & Hnth & Hslice).
  exists r. fold ax in Hshape, Hnth, Hslice.
  rewrite length_fmap in Hshape, Hnth.
  split; [|split; [done|split; [done|]]].
  - rewrite (vmap_unfold _ _ _ _ _ _ (comprehension_pure f (x0 :: xs) w)).
    rewrite fmap_cons. by rewrite Hstack.
  - intros i x Hi. apply Hslice.
    rewrite <- fmap_cons, list_lookup_fmap, Hi. done.
Qed.

Lemma vmap_stacks_results_witness :
  let row (x : Z) := Np.mk_ndarray [2%nat] [x; x * x] in
  exists r,
    Fallback.vmap (pure_fun row) 1 [1; 2; 3] tt = (Ok r, tt) /\
    Np.shape r = [2; 3]%nat /\
    nth 1 (Np.shape r) 0%nat = 3%nat /\
    forall i x, [1; 2; 3] !! i = Some x -> Np.take_along r i 1 = row x.
Proof.
  intros row.
  refine (vmap_stacks_results row 1 [1; 2; 3] [2%nat] tt _ _ _).
  - discriminate.
  - repeat constructor.
  - unfold len. simpl. lia.
Defined.

(** C5 as stated fails on a sequence of no inputs: the comprehension is
    empty and [np.stack] raises [ValueError] on an empty list, so no array
    with a leading axis of extent 0 is returned. *)
Lemma vmap_of_no_input_raises :
  Fallback.vmap0 (pure_fun (fun x : Z => Np.mk_ndarray [] [x])) [] tt
  = (Raise ValueError, tt).
Proof. reflexivity. Qed.

(** The other two ways in which [np.stack] refuses the results. *)
Example vmap_unequal_shapes :
  Fallback.vmap0
    (pure_fun (fun n : nat => Np.mk_ndarray [n] (replicate n 0))) [1; 2]%nat tt
  = (Raise ValueError, tt).
Proof. reflexivity. Qed.

Example vmap_axis_out_of_range :
  Fallback.vmap (pure_fun (fun x : Z => Np.mk_ndarray [] [x])) 2 [1; 2] tt
  = (Raise AxisError, tt).
Proof. reflexivity. Qed.

(** ** Broadcasting *)

#[global] Instance int_exact : Np.ExactScalar Z.
Proof. split; intros v; simpl; lia. Qed.

Lemma bshape_rev_same (r : list nat) : Np.bshape_rev r r = Some r.
Proof.
  induction r as [|d r IH]; [done|].
  simpl. unfold Np.bdim. rewrite Nat.eqb_refl. simpl. by rewrite IH.
Qed.

Lemma broadcast_shapes_same (s : list nat) : Np.broadcast_shapes s s = Some s.
Proof.
  unfold Np.broadcast_shapes. rewrite bshape_rev_same. simpl.
  by rewrite reverse_involutive.
Qed.

Lemma size_cons_pos (d : nat) (s : list nat) (k : nat) :
  (k < Np.size (d :: s))%nat -> (0 < Np.size s)%nat.
Proof. unfold Np.size. simpl. nia. Qed.

(** Offsets and multi-indices are inverse to each other within a shape. *)
Lemma ravel_unravel (s : list nat) (k : nat) :
  (k < Np.size s)%nat -> Np.ravel s (Np.unravel s k) = k.
Proof.
  revert k. induction s as [|d s IH]; intros k Hk.
  - unfold Np.size in Hk. simpl in *. lia.
  - pose proof (size_cons_pos d s k Hk) as Hpos.
    simpl. rewrite IH by (apply Nat.mod_upper_bound; lia).
    pose proof (Nat.div_mod_eq k (Np.size s)). lia.
Qed.

Lemma length_unravel (s : list nat) (k : nat) : length (Np.unravel s k) = length s.
Proof. revert k. induction s as [|d s IH]; intros k; simpl; [done|]. by rewrite IH. Qed.

(** Within its own shape an array is read where the result is written. *)
Lemma bindex_unravel (s : list nat) (k : nat) :
  (k < Np.size s)%nat -> Np.bindex s (Np.unravel s k) = Np.unravel s k.
Proof.
  unfold Np.bindex. rewrite length_unravel, Nat.sub_diag, drop_0.
  revert k. induction s as [|d s IH]; intros k Hk; [done|].
  pose proof (size_cons_pos d s k Hk) as Hpos.
  simpl. rewrite IH by (apply Nat.mod_upper_bound; lia). f_equal.
  destruct (Nat.eqb_spec d 1) as [->|]; [|done].
  symmetry. apply Nat.div_small. unfold Np.size in *. simpl in Hk. lia.
Qed.

Lemma fmap_lookup_total_seq {T} `{!Inhabited T} (l : list T) :
  (fun k => l !!! k) <$> seq 0 (length l) = l.
Proof.
  apply list_eq. intros i. rewrite list_lookup_fmap.
  destruct (decide (i < length l)%nat) as [Hlt|Hge].
  - rewrite lookup_seq_lt by done. simpl.
    symmetry. by apply list_lookup_lookup_total_lt.
  - rewrite lookup_seq_ge by lia. simpl.
    symmetry. apply lookup_ge_None_2. lia.
Qed.

Lemma broadcast_to_same {T} `{!Inhabited T} (a : Np.ndarray T) :
  Np.wf a -> Np.broadcast_to a (Np.shape a) = a.
Proof.
  intros Hwf. destruct a as [s d]. unfold Np.wf in Hwf. simpl in Hwf.
  unfold Np.broadcast_to. simpl. f_equal.
  transitivity ((fun k => d !!! k) <$> seq 0 (length d));
    [|apply fmap_lookup_total_seq].
  rewrite Hwf. apply list_fmap_ext. intros i k Hk.
  apply lookup_seq in Hk as [-> Hlt]. simpl.
  unfold Np.item. simpl. by rewrite bindex_unravel, ravel_unravel.
Qed.

Lemma transpose_wf {T} `{!Inhabited T} (a : Np.ndarray T) : Np.wf (Np.transpose a).
Proof. unfold Np.wf, Np.transpose. simpl. by rewrite length_fmap, length_seq. Qed.

Lemma ufunc1_wf {T U} (f : T -> U) (a : Np.ndarray T) :
  Np.wf a -> Np.wf (Np.ufunc1 f a).
Proof. unfold Np.wf, Np.ufunc1. simpl. by rewrite length_fmap. Qed.

(** Transposition and broadcasting on concrete arrays: a 2x3 matrix, a
    column times a row, and shapes that do not agree. *)
Example transpose_matrix :
  Np.transpose (Np.mk_ndarray [2; 3]%nat [1; 2; 3; 4; 5; 6])
  = Np.mk_ndarray [3; 2]%nat [1; 4; 2; 5; 3; 6].
Proof. reflexivity. Qed.

Example multiply_column_by_row :
  Np.multiply (Np.mk_ndarray [2; 1]%nat [1; 2]) (Np.mk_ndarray [3%nat] [10; 20; 30])
  = Ok (Np.mk_ndarray [2; 3]%nat [10; 20; 30; 20; 40; 60]) /\
  Np.plus (Np.mk_ndarray [2; 3]%nat [1; 2; 3; 4; 5; 6]) (Np.mk_ndarray [] [100])
  = Ok (Np.mk_ndarray [2; 3]%nat [101; 102; 103; 104; 105; 106]) /\
  Np.plus (Np.mk_ndarray [2; 3]%nat [1; 2; 3; 4; 5; 6]) (Np.mk_ndarray [2%nat] [1; 2])
  = Raise ValueError.
Proof. repeat split. Qed.

(** ** Adding [0 * a] *)

Section ZeroTerms.
Context {T : Type} `{!Np.Scalar T} `{!Np.ExactScalar T}.
Implicit Types (x a : Np.ndarray T).

Lemma item_int_times_zero a idx :
  Np.item (Np.int_times 0 a) idx = Np.of_int 0.
Proof.
  unfold Np.item, Np.int_times, Np.ufunc1. simpl.
  rewrite list_lookup_total_alt, list_lookup_fmap.
  destruct (Np.data a !! _); simpl; [apply Np.mul_zero_l|done].
Qed.

Lemma zip_with_add_zeros {K} (d : list T) (ks : list K) :
  length d = length ks ->
  zip_with Np.add d ((fun _ => Np.of_int 0) <$> ks) = d.
Proof.
  revert ks. induction d as [|v d IH]; intros [|k ks] Hlen; simpl in *;
    try done.
  rewrite Np.add_zero_r, IH; [done|lia].
Qed.

(** A term [0 * a] whose shape broadcasts into the shape of [x] adds
    nothing to [x]. *)
Lemma plus_zero_term x a :
  Np.wf x ->
  Np.broadcast_shapes (Np.shape x) (Np.shape a) = Some (Np.shape x) ->
  Np.plus x (Np.int_times 0 a) = Ok x.
Proof.
  intros Hwf Hshape. unfold Np.plus, Np.ufunc2.
  change (Np.shape (Np.int_times 0 a)) with (Np.shape a). rewrite Hshape.
  rewrite broadcast_to_same by done.
  destruct x as [s d]. simpl. do 2 f_equal.
  erewrite (list_fmap_ext _ (fun _ => Np.of_int 0)).
  - apply zip_with_add_zeros. unfold Np.wf in Hwf. simpl in Hwf.
    by rewrite length_seq.
  - intros i k _. apply item_int_times_zero.
Qed.

End ZeroTerms.

(** ** The derivative rule of [custom_jvp_with_jit] *)

Lemma shape_error_ok {A} (r : result A) (a : A) :
  r = Ok a -> Jnp.shape_error r = Ok a.
Proof. by intros ->. Qed.

Lemma shape_error_ok_inv {A} (r : result A) (a : A) :
  Jnp.shape_error r = Ok a -> r = Ok a.
Proof. by destruct r. Qed.

(** *** Zero terms on [float64] *)

Lemma float64_same_refl (u : Np.float64) : Np.float64_same u u.
Proof. by left. Qed.

Lemma float64_same_trans (u v w : Np.float64) :
  Np.float64_same u v -> Np.float64_same v w -> Np.float64_same u w.
Proof.
  intros [Huv|(s & s' & Hu & Hv)] [Hvw|(t & t' & Hv' & Hw)];
    unfold Np.float64_same; subst; eauto.
Qed.

Lemma float64_zero_times_finite (v : Np.float64) :
  Np.float64_finite v = true -> exists s, Np.mul (Np.of_int 0) v = S754_zero s.
Proof. destruct v as [s|s| |s mv ev]; simpl; try done; eauto. Qed.

Lemma float64_plus_zero (u : Np.float64) (s : bool) :
  Np.float64_same u (Np.add u (S754_zero s)).
Proof.
  destruct u as [[]|[]| |su mu eu]; destruct s; simpl;
    unfold Np.float64_same; eauto.
Qed.

Lemma zip_with_add_float64_zeros (d zs : list Np.float64) :
  length d = length zs ->
  Forall (fun z => exists s, z = S754_zero s) zs ->
  Forall2 Np.float64_same d (zip_with Np.add d zs).
Proof.
  revert zs. induction d as [|u d IH]; intros [|z zs] Hlen Hz; simpl in *;
    try discriminate.
  - constructor.
  - apply Forall_cons in Hz as [[s ->] Hz]. constructor.
    + apply float64_plus_zero.
    + apply IH; [lia|done].
Qed.

Lemma item_int_times_zero_float64 (a : Np.ndarray Np.float64) (idx : list nat) :
  Forall (fun v => Np.float64_finite v = true) (Np.data a) ->
  exists s, Np.item (Np.int_times 0 a) idx = S754_zero s.
Proof.
  intros Hfin. unfold Np.item, Np.int_times, Np.ufunc1. simpl.
  rewrite list_lookup_total_alt, list_lookup_fmap.
  destruct (Np.data a !! _) as [v|] eqn:Hv; simpl.
  - apply float64_zero_times_finite.
    rewrite Forall_forall in Hfin. apply Hfin.
    by eapply list_elem_of_lookup_2.
  - by exists false.
Qed.

(** On [float64] a term [0 * a] with finite [a], whose shape broadcasts
    into the shape of [x], changes [x] by the sign of its zeros at most. *)
Lemma plus_zero_term_float64 (x a : Np.ndarray Np.float64) :
  Np.wf x ->
  Np.broadcast_shapes (Np.shape x) (Np.shape a) = Some (Np.shape x) ->
  Forall (fun v => Np.float64_finite v = true) (Np.data a) ->
  exists x',
    Np.plus x (Np.int_times 0 a) = Ok x' /\
    Np.shape x' = Np.shape x /\ Np.wf x' /\
    Forall2 Np.float64_same (Np.data x) (Np.data x').
Proof.
  intros Hwf Hshape Hfin. unfold Np.plus, Np.ufunc2.
  change (Np.shape (Np.int_times 0 a)) with (Np.shape a). rewrite Hshape.
  rewrite broadcast_to_same by done.
  eexists. split; [reflexivity|]. simpl. split; [done|].
  unfold Np.wf in *. simpl.
  assert (length (Np.data x)
          = length ((fun k => Np.item (Np.int_times 0 a)
                                (Np.bindex (Np.shape (Np.int_times 0 a))
                                   (Np.unravel (Np.shape x) k)))
                    <$> seq 0 (Np.size (Np.shape x)))) as Hlen.
  { by rewrite length_fmap, length_seq. }
  split.
  - rewrite length_zip_with_l_eq by done. done.
  - apply zip_with_add_float64_zeros; [done|].
    apply Forall_fmap, Forall_forall. intros k _.
    by apply item_int_times_zero_float64.
Qed.

(** C7, as the code has it.  When [func] returns at [dr] and at [dr + 1],
    the product [df.T * rdot] is defined, and the shapes of [ldot] and
    [mdot] broadcast into the shape of [(df.T * rdot).T], the registered
    rule returns the primal value [func(r, l, m, dr)] with the tangent
    [(func(r, l, m, dr + 1).T * rdot).T], the terms [0 * ldot] and
    [0 * mdot] adding nothing: exactly so on a dtype with exact arithmetic
    (the integers), and on [float64], for [ldot] and [mdot] without NaN
    or infinity, element by element up to the sign of a zero. *)
Theorem jvp_rule_is_next_order_times_rdot :
  (forall (T : Type) (S : Np.Scalar T) (X : Np.ExactScalar T)
     (func : Jax.radial) (r l m rdot ldot mdot f df t : Np.ndarray T) (dr : Z),
     func r l m dr = Ok f ->
     func r l m (dr + 1) = Ok df ->
     Jnp.multiply (Np.transpose df) rdot = Ok t ->
     Np.broadcast_shapes (Np.shape (Np.transpose t)) (Np.shape ldot)
       = Some (Np.shape (Np.transpose t)) ->
     Np.broadcast_shapes (Np.shape (Np.transpose t)) (Np.shape mdot)
       = Some (Np.shape (Np.transpose t)) ->
     Jax.jvp (Jax.custom_jvp_with_jit func) dr (r, l, m) (rdot, ldot, mdot)
     = Ok (f, Np.transpose t)) /\
  (forall (func : Jax.radial)
     (r l m rdot ldot mdot f df t : Np.ndarray Np.float64) (dr : Z),
     func r l m dr = Ok f ->
     func r l m (dr + 1) = Ok df ->
     Jnp.multiply (Np.transpose df) rdot = Ok t ->
     Np.broadcast_shapes (Np.shape (Np.transpose t)) (Np.shape ldot)
       = Some (Np.shape (Np.transpose t)) ->
     Np.broadcast_shapes (Np.shape (Np.transpose t)) (Np.shape mdot)
       = Some (Np.shape (Np.transpose t)) ->
     Forall (fun v => Np.float64_finite v = true) (Np.data ldot) ->
     Forall (fun v => Np.float64_finite v = true) (Np.data mdot) ->
     exists tangent,
       Jax.jvp (Jax.custom_jvp_with_jit func) dr (r, l, m) (rdot, ldot, mdot)
       = Ok (f, tangent) /\
       Np.shape tangent = Np.shape (Np.transpose t) /\
       Forall2 Np.float64_same (Np.data (Np.transpose t)) (Np.data tangent)).
Proof.
  split.
  - intros T S X func r l m rdot ldot mdot f df t dr Hf Hdf Ht Hl Hm.
    unfold Jax.custom_jvp_with_jit, Jax.jit. simpl.
    rewrite Hf, Hdf. simpl. rewrite Ht. simpl.
    unfold Jnp.plus.
    rewrite (plus_zero_term _ ldot (transpose_wf t) Hl). simpl.
    rewrite (plus_zero_term _ mdot (transpose_wf t) Hm). done.
  - intros func r l m rdot ldot mdot f df t dr Hf Hdf Ht Hl Hm Hlfin Hmfin.
    destruct (plus_zero_term_float64 (Np.transpose t) ldot (transpose_wf t) Hl Hlfin)
      as (t1 & Hplus1 & Hs1 & Hwf1 & Hsame1).
    rewrite <- Hs1 in Hm.
    destruct (plus_zero_term_float64 t1 mdot Hwf1 Hm Hmfin)
      as (t2 & Hplus2 & Hs2 & _ & Hsame2).
    exists t2.
    unfold Jax.custom_jvp_with_jit, Jax.jit. simpl.
    rewrite Hf, Hdf. simpl. rewrite Ht. simpl.
    unfold Jnp.plus. rewrite Hplus1. simpl. rewrite Hplus2. simpl.
    split; [done|]. split; [by rewrite Hs2, Hs1|].
    eapply Forall2_trans; [|exact Hsame1|exact Hsame2].
    apply float64_same_trans.
Qed.

Lemma jvp_rule_is_next_order_times_rdot_witness :
  (let func : Jax.radial := fun r l m dr =>
     Ok (Np.ufunc1 (Z.mul dr) (Np.mk_ndarray [3; 2]%nat [1; 2; 3; 4; 5; 6])) in
   Jax.jvp (Jax.custom_jvp_with_jit func) 1
     (Np.mk_ndarray [3%nat] [0; 1; 2],
      Np.mk_ndarray [2%nat] [4; 6], Np.mk_ndarray [2%nat] [0; 2])
     (Np.mk_ndarray [3%nat] [10; 100; 1000],
      Np.mk_ndarray [2%nat] [7; 7], Np.mk_ndarray [2%nat] [9; 9])
   = Ok (Np.mk_ndarray [3; 2]%nat [1; 2; 3; 4; 5; 6],
         Np.mk_ndarray [3; 2]%nat [20; 40; 600; 800; 10000; 12000])) /\
  (let one := Np.float64_of_int 1 in
   let func : Jax.radial := fun r l m dr =>
     Ok (Np.mk_ndarray [2%nat] [Np.float64_of_int dr; Np.float64_of_int (- dr)]) in
   exists tangent,
     Jax.jvp (Jax.custom_jvp_with_jit func) 2
       (Np.mk_ndarray [2%nat] [one; one],
        Np.mk_ndarray [1%nat] [one], Np.mk_ndarray [1%nat] [one])
       (Np.mk_ndarray [2%nat] [one; one],
        Np.mk_ndarray [1%nat] [one], Np.mk_ndarray [1%nat] [S754_zero true])
     = Ok (Np.mk_ndarray [2%nat] [Np.float64_of_int 2; Np.float64_of_int (-2)],
           tangent) /\
     Np.shape tangent = [2%nat] /\
     Forall2 Np.float64_same
       [Np.float64_of_int 3; Np.float64_of_int (-3)] (Np.data tangent)).
Proof.
  split.
  - intros func.
    exact (proj1 jvp_rule_is_next_order_times_rdot Z _ _ func
             (Np.mk_ndarray [3%nat] [0; 1; 2])
             (Np.mk_ndarray [2%nat] [4; 6]) (Np.mk_ndarray [2%nat] [0; 2])
             (Np.mk_ndarray [3%nat] [10; 100; 1000])
             (Np.mk_ndarray [2%nat] [7; 7]) (Np.mk_ndarray [2%nat] [9; 9])
             (Np.mk_ndarray [3; 2]%nat [1; 2; 3; 4; 5; 6])
             (Np.mk_ndarray [3; 2]%nat [2; 4; 6; 8; 10; 12])
             (Np.mk_ndarray [2; 3]%nat [20; 600; 10000; 40; 800; 12000]) 1
             eq_refl eq_refl eq_refl eq_refl eq_refl).
  - intros one func.
    refine (proj2 jvp_rule_is_next_order_times_rdot func
              (Np.mk_ndarray [2%nat] [one; one])
              (Np.mk_ndarray [1%nat] [one]) (Np.mk_ndarray [1%nat] [one])
              (Np.mk_ndarray [2%nat] [one; one])
              (Np.mk_ndarray [1%nat] [one]) (Np.mk_ndarray [1%nat] [S754_zero true])
              (Np.mk_ndarray [2%nat] [Np.float64_of_int 2; Np.float64_of_int (-2)])
              (Np.mk_ndarray [2%nat] [Np.float64_of_int 3; Np.float64_of_int (-3)])
              (Np.mk_ndarray [2%nat] [Np.float64_of_int 3; Np.float64_of_int (-3)])
              2 eq_refl eq_refl eq_refl eq_refl eq_refl _ _);
      repeat constructor.
Defined.

(** C7 as stated fails when [ldot] is wider than the product: [func]
    ignores [l] and returns one element, [l] and [ldot] have two, and the
    tangent returned has two elements where [(df.T * rdot).T] has one. *)
Lemma jvp_tangent_takes_the_shape_of_ldot :
  let func : Jax.radial := fun r l m dr => Ok (Np.mk_ndarray [1%nat] [dr]) in
  let r := Np.mk_ndarray [1%nat] [5] in
  let l := Np.mk_ndarray [2%nat] [1; 2] in
  let m := Np.mk_ndarray [1%nat] [0] in
  let rdot := Np.mk_ndarray [1%nat] [1] in
  let ldot := Np.mk_ndarray [2%nat] [0; 0] in
  let mdot := Np.mk_ndarray [1%nat] [0] in
  Jax.jvp (Jax.custom_jvp_with_jit func) 3 (r, l, m) (rdot, ldot, mdot)
    = Ok (Np.mk_ndarray [1%nat] [3], Np.mk_ndarray [2%nat] [4; 4]) /\
  (df ← func r l m (3 + 1); t ← Np.multiply (Np.transpose df) rdot;
   mret (Np.transpose t))
    = Ok (Np.mk_ndarray [1%nat] [4]).
Proof. split; reflexivity. Qed.

(** Tangents whose shapes do not broadcast make the rule raise. *)
Example jvp_incompatible_tangent_shapes :
  let func : Jax.radial := fun r l m dr => Ok (Np.ufunc1 (fun v => v ^ dr) r) in
  Jax.jvp (Jax.custom_jvp_with_jit func) 2
    (Np.mk_ndarray [2%nat] [3; 5], Np.mk_ndarray [3%nat] [4; 4; 4], Np.mk_ndarray [1%nat] [2])
    (Np.mk_ndarray [2%nat] [1; 10], Np.mk_ndarray [3%nat] [7; 7; 7], Np.mk_ndarray [1%nat] [9])
  = Raise TypeError.
Proof. reflexivity. Qed.

(** On [float64] the two laws of [ExactScalar] hold for finite values up to
    the sign of zero, and fail beyond them. *)
Remark float64_zero_term_finite (p v : Np.float64) :
  (v <> S754_nan /\ forall s, v <> S754_infinity s) ->
  let t := Np.add p (Np.mul (Np.of_int 0) v) in
  t = p \/ exists s s', p = S754_zero s /\ t = S754_zero s'.
Proof.
  intros [Hnan Hinf] t. subst t.
  destruct v as [sv|sv| |sv mv ev]; [| by destruct (Hinf sv) | done |];
    destruct p as [[]|[]| |sp mp ep]; destruct sv; simpl; eauto.
Qed.

Example float64_zero_times_infinity :
  Np.mul (Np.of_int 0) (S754_infinity false) = S754_nan /\
  Np.add (Np.of_int 1) (Np.mul (Np.of_int 0) (S754_infinity false)) = S754_nan.
Proof. split; reflexivity. Qed.

(** The rule on [float64], where the two conditions on [ldot] and [mdot]
    are needed: an infinite [ldot] turns the tangent into NaN, and a
    tangent [-0.0] comes back as [+0.0]. *)
Example jvp_float64_infinite_ldot :
  let one := Np.float64_of_int 1 in
  let func : Jax.radial := fun r l m dr => Ok (Np.mk_ndarray [1%nat] [one]) in
  Jax.jvp (Jax.custom_jvp_with_jit func) 0
    (Np.mk_ndarray [1%nat] [one], Np.mk_ndarray [1%nat] [one],
     Np.mk_ndarray [1%nat] [one])
    (Np.mk_ndarray [1%nat] [one], Np.mk_ndarray [1%nat] [S754_infinity false],
     Np.mk_ndarray [1%nat] [one])
  = Ok (Np.mk_ndarray [1%nat] [one], Np.mk_ndarray [1%nat] [S754_nan]).
Proof. reflexivity. Qed.

Example jvp_float64_negative_zero :
  let one := Np.float64_of_int 1 in
  let func : Jax.radial := fun r l m dr =>
    Ok (Np.mk_ndarray [1%nat] [S754_zero true]) in
  Jax.jvp (Jax.custom_jvp_with_jit func) 0
    (Np.mk_ndarray [1%nat] [one], Np.mk_ndarray [1%nat] [one],
     Np.mk_ndarray [1%nat] [one])
    (Np.mk_ndarray [1%nat] [one], Np.mk_ndarray [1%nat] [one],
     Np.mk_ndarray [1%nat] [one])
  = Ok (Np.mk_ndarray [1%nat] [S754_zero true],
        Np.mk_ndarray [1%nat] [S754_zero false]) /\
  (t ← Jnp.multiply
         (Np.transpose (Np.mk_ndarray [1%nat] [S754_zero true]))
         (Np.mk_ndarray [1%nat] [one]);
   mret (Np.transpose t))
  = Ok (Np.mk_ndarray [1%nat] [S754_zero true]).
Proof. split; reflexivity. Qed.

(** ** The sign shim *)

Section SignFacts.
Context {T : Type} `{!Np.Scalar T}.
Implicit Types (x : Np.ndarray T).

Lemma atleast_1d_wf x : Np.wf x -> Np.wf (Np.atleast_1d x).
Proof.
  unfold Np.wf, Np.atleast_1d. destruct x as [[|d s] dx]; simpl; [|done].
  unfold Np.size. simpl. lia.
Qed.

Lemma atleast_1d_data x : Np.data (Np.atleast_1d x) = Np.data x.
Proof. unfold Np.atleast_1d. by destruct x as [[|d s] dx]. Qed.

(** The shim maps [sign_of] over the buffer and keeps the shape, made
    1-d for a scalar. *)
Lemma sign_elementwise x :
  Np.wf x ->
  Fallback.sign x =
  Ok (Np.mk_ndarray (Np.shape (Np.atleast_1d x))
        ((fun v : T => if Np.eqb v (Np.of_int 0) then Np.of_int 1 else Np.sgn v)
           <$> Np.data x)).
Proof.
  intros Hwf. apply atleast_1d_wf in Hwf.
  rewrite <- atleast_1d_data.
  unfold Fallback.sign. cbv zeta.
  set (x1 := Np.atleast_1d x) in *.
  unfold Np.where_int.
  change (Np.shape (Np.eq_int x1 0)) with (Np.shape x1).
  change (Np.shape (Np.sign x1)) with (Np.shape x1).
  rewrite broadcast_shapes_same.
  rewrite (broadcast_to_same (Np.eq_int x1 0)) by (by apply ufunc1_wf).
  rewrite (broadcast_to_same (Np.sign x1)) by (by apply ufunc1_wf).
  simpl. do 2 f_equal.
  rewrite zip_with_fmap_l, zip_with_fmap_r, zip_with_diag. done.
Qed.

Lemma sign_jax_same x : Jax.sign x = Fallback.sign x.
Proof. reflexivity. Qed.

(** From the elements to the array, in both halves of the module. *)
Lemma sign_positions x :
  Np.wf x ->
  (forall v, Np.leb (Np.of_int 0) v = true ->
     (if Np.eqb v (Np.of_int 0) then Np.of_int 1 else Np.sgn v) = Np.of_int 1) ->
  (forall v, Np.ltb v (Np.of_int 0) = true ->
     (if Np.eqb v (Np.of_int 0) then Np.of_int 1 else Np.sgn v) = Np.of_int (-1)) ->
  exists y,
    Fallback.sign x = Ok y /\ Jax.sign x = Ok y /\
    Np.shape y = Np.shape (Np.atleast_1d x) /\
    length (Np.data y) = length (Np.data x) /\
    forall i v, Np.data x !! i = Some v ->
      (Np.leb (Np.of_int 0) v = true -> Np.data y !! i = Some (Np.of_int 1)) /\
      (Np.ltb v (Np.of_int 0) = true -> Np.data y !! i = Some (Np.of_int (-1))).
Proof.
  intros Hwf Hpos Hneg. eexists.
  split; [by apply sign_elementwise|].
  split; [rewrite sign_jax_same; by apply sign_elementwise|].
  simpl. split; [done|]. split; [by rewrite length_fmap|].
  intros i v Hx. rewrite list_lookup_fmap, Hx. simpl.
  split; intros Hv; f_equal; [by apply Hpos|by apply Hneg].
Qed.

End SignFacts.

Lemma int_sign_nonneg (v : Z) :
  Np.leb (Np.of_int 0) v = true ->
  (if Np.eqb v (Np.of_int 0) then Np.of_int 1 else Np.sgn v) = Np.of_int 1.
Proof.
  simpl. intros Hv. apply Z.leb_le in Hv.
  destruct (Z.eqb_spec v 0); [done|]. apply Z.sgn_pos. lia.
Qed.

Lemma int_sign_neg (v : Z) :
  Np.ltb v (Np.of_int 0) = true ->
  (if Np.eqb v (Np.of_int 0) then Np.of_int 1 else Np.sgn v) = Np.of_int (-1).
Proof.
  simpl. intros Hv. apply Z.ltb_lt in Hv.
  destruct (Z.eqb_spec v 0); [lia|]. apply Z.sgn_neg. lia.
Qed.

Lemma float64_sign_nonneg (v : Np.float64) :
  Np.leb (Np.of_int 0) v = true ->
  (if Np.eqb v (Np.of_int 0) then Np.of_int 1 else Np.sgn v) = Np.of_int 1.
Proof. destruct v as [[]|[]| |[] mv ev]; simpl; done. Qed.

Lemma float64_sign_neg (v : Np.float64) :
  Np.ltb v (Np.of_int 0) = true ->
  (if Np.eqb v (Np.of_int 0) then Np.of_int 1 else Np.sgn v) = Np.of_int (-1).
Proof. destruct v as [[]|[]| |[] mv ev]; simpl; done. Qed.

(** The order of [float64] at zero: both zeros are [>= 0], NaN is neither
    [>= 0] nor [< 0]. *)
Example float64_zero_cases :
  Np.leb (Np.of_int 0) (S754_zero true) = true /\
  Np.leb (Np.of_int 0) (S754_zero false) = true /\
  Np.leb (Np.of_int 0) S754_nan = false /\
  Np.ltb S754_nan (Np.of_int 0) = false /\
  Np.sgn S754_nan = S754_nan.
Proof. repeat split. Qed.

(** C2.  On integer arrays and on [float64] arrays alike, and in both
    halves of the module, [sign] returns an array with one element per
    element of [x] (a scalar gives a 1-d array of one element), which is
    +1 wherever [x >= 0] (at zero in particular) and -1 wherever [x < 0]. *)
Theorem sign_is_one_from_zero_up :
  (forall x : Np.ndarray Z, Np.wf x ->
     exists y,
       Fallback.sign x = Ok y /\ Jax.sign x = Ok y /\
       Np.shape y = Np.shape (Np.atleast_1d x) /\
       length (Np.data y) = length (Np.data x) /\
       forall i v, Np.data x !! i = Some v ->
         (0 <= v -> Np.data y !! i = Some 1) /\
         (v < 0 -> Np.data y !! i = Some (-1))) /\
  (forall x : Np.ndarray Np.float64, Np.wf x ->
     exists y,
       Fallback.sign x = Ok y /\ Jax.sign x = Ok y /\
       Np.shape y = Np.shape (Np.atleast_1d x) /\
       length (Np.data y) = length (Np.data x) /\
       forall i v, Np.data x !! i = Some v ->
         (SFleb (S754_zero false) v = true ->
            Np.data y !! i = Some (Np.float64_of_int 1)) /\
         (SFltb v (S754_zero false) = true ->
            Np.data y !! i = Some (Np.float64_of_int (-1)))).
Proof.
  split; intros x Hwf.
  - destruct (sign_positions x Hwf int_sign_nonneg int_sign_neg)
      as (y & Hf & Hj & Hs & Hl & Hy).
    exists y. repeat (split; [done|]). intros i v Hv.
    destruct (Hy i v Hv) as [Hpos Hneg]. split; intros Hc.
    + apply Hpos. simpl. by apply Z.leb_le.
    + apply Hneg. simpl. by apply Z.ltb_lt.
  - destruct (sign_positions x Hwf float64_sign_nonneg float64_sign_neg)
      as (y & Hf & Hj & Hs & Hl & Hy).
    exists y. repeat (split; [done|]). exact Hy.
Qed.

Lemma sign_is_one_from_zero_up_witness :
  (exists y,
     Fallback.sign (Np.mk_ndarray [] [0]) = Ok y /\
     Jax.sign (Np.mk_ndarray [] [0]) = Ok y /\
     Np.shape y = [1%nat] /\ Np.data y !! 0%nat = Some 1) /\
  Fallback.sign (Np.mk_ndarray [2; 2]%nat [-7; 0; 3; -1])
    = Ok (Np.mk_ndarray [2; 2]%nat [-1; 1; 1; -1]) /\
  Fallback.sign
    (Np.mk_ndarray [3%nat] [S754_zero true; S754_infinity true; S754_nan])
    = Ok (Np.mk_ndarray [3%nat]
            [Np.float64_of_int 1; Np.float64_of_int (-1); S754_nan]).
Proof.
  split; [|split; reflexivity].
  destruct (proj1 sign_is_one_from_zero_up (Np.mk_ndarray [] [0]) eq_refl)
    as (y & Hf & Hj & Hs & _ & Hy).
  exists y. repeat (split; [done|]).
  apply (Hy 0%nat 0 eq_refl). done.
Defined.

(** ** Indexed assignment *)

Section PutFacts.
Context {T : Type}.
Implicit Types (a : list T) (pos : list nat) (vs : list T) (inds : list Z).

Lemma assign_cons a p pos v vs :
  Np.assign a (p :: pos) (v :: vs) = Np.assign (<[p := v]> a) pos vs.
Proof. reflexivity. Qed.

Lemma assign_length a pos vs : length (Np.assign a pos vs) = length a.
Proof.
  revert a vs. induction pos as [|p pos IH]; intros a [|v vs]; try done.
  by rewrite assign_cons, IH, length_insert.
Qed.

(** Positions that are not assigned keep their item. *)
Lemma assign_other a pos vs (p : nat) :
  p ∉ pos -> Np.assign a pos vs !! p = a !! p.
Proof.
  revert a vs. induction pos as [|q pos IH]; intros a [|v vs] Hp; try done.
  apply not_elem_of_cons in Hp as [Hne Hp].
  rewrite assign_cons, IH by done. by apply list_lookup_insert_ne.
Qed.

(** With distinct positions inside the array, each one ends with the
    value written to it. *)
Lemma assign_written a pos vs (j p : nat) v :
  NoDup pos -> Forall (fun q => (q < length a)%nat) pos ->
  pos !! j = Some p -> vs !! j = Some v ->
  Np.assign a pos vs !! p = Some v.
Proof.
  revert a vs j. induction pos as [|q pos IH]; intros a [|w vs] j Hnd Hin Hp Hv;
    try done.
  apply NoDup_cons in Hnd as [Hq Hnd]. apply Forall_cons in Hin as [Hlt Hin].
  rewrite assign_cons. destruct j as [|j]; simpl in *.
  - inversion Hp; inversion Hv; subst.
    rewrite assign_other by done. by apply list_lookup_insert_eq.
  - apply (IH _ _ j); try done.
    eapply Forall_impl; [exact Hin|]. intros r Hr. by rewrite length_insert.
Qed.

Lemma broadcast_values_same_length vs :
  Np.broadcast_values (length vs) (Np.Many vs) = Some vs.
Proof.
  destruct vs as [|v [|v' vs]]; simpl; try done.
  by rewrite Nat.eqb_refl.
Qed.

(** The position of an index that is in bounds. *)
Lemma norm_index_in_bounds (n : nat) (i : Z) :
  - Z.of_nat n <= i < Z.of_nat n ->
  Np.norm_index n i = Some (Z.to_nat (if i <? 0 then i + Z.of_nat n else i)).
Proof.
  intros Hi. unfold Np.norm_index.
  destruct (Z.ltb_spec i 0).
  - destruct (Z.ltb_spec (i + Z.of_nat n) 0); [lia|].
    destruct (Z.leb_spec (Z.of_nat n) (i + Z.of_nat n)); [lia|]. done.
  - destruct (Z.ltb_spec i 0); [lia|].
    destruct (Z.leb_spec (Z.of_nat n) i); [lia|]. done.
Qed.

Lemma norm_indices_in_bounds (n : nat) inds :
  Forall (fun i => - Z.of_nat n <= i < Z.of_nat n) inds ->
  mapM (Np.norm_index n) inds =
  Some ((fun i => Z.to_nat (if i <? 0 then i + Z.of_nat n else i)) <$> inds).
Proof.
  intros Hin. apply mapM_Some_2, Forall2_fmap_r, Forall_Forall2_diag.
  eapply Forall_impl; [exact Hin|]. intros i Hi. by apply norm_index_in_bounds.
Qed.

(** On indices in bounds JAX's scatter writes what NumPy's assignment
    writes. *)
Lemma scatter_pairs_in_bounds (n : nat) inds vs :
  Forall (fun i => - Z.of_nat n <= i < Z.of_nat n) inds ->
  Jnp.scatter_pairs n inds vs =
  zip ((fun i => Z.to_nat (if i <? 0 then i + Z.of_nat n else i)) <$> inds) vs.
Proof.
  unfold Jnp.scatter_pairs. revert vs.
  induction inds as [|i inds IH]; intros [|v vs] Hin; try done.
  apply Forall_cons in Hin as [Hi Hin]. simpl.
  rewrite norm_index_in_bounds by done. simpl. by rewrite IH.
Qed.

End PutFacts.

(** C4.  For an array [a], indices in bounds that name distinct positions,
    and as many values as indices, [put] returns an array of the same
    length that holds each value at the position of its index and the
    item of [a] everywhere else.  In the NumPy half, and in the JAX half
    on a NumPy array, it is [a] itself, updated in the heap; in the JAX
    half on anything else it is a new JAX array with the same contents and
    the heap is untouched. *)
Theorem put_overwrites_inds_only {T : Type} (a : list T) (inds : list Z)
    (vs : list T) :
  let n := Z.of_nat (length a) in
  let pos := fun i : Z => Z.to_nat (if i <? 0 then i + n else i) in
  Forall (fun i => - n <= i < n) inds ->
  NoDup (pos <$> inds) ->
  length vs = length inds ->
  exists a',
    (length a' = length a /\
     (forall j i v, inds !! j = Some i -> vs !! j = Some v ->
        a' !! pos i = Some v) /\
     (forall p, p ∉ pos <$> inds -> a' !! p = a !! p)) /\
    (forall (h : gmap Np.loc (list T)) (l : Np.loc), h !! l = Some a ->
       Fallback.put (Np.NumpyArray l) inds (Np.Many vs) h
         = (Ok (Np.NumpyArray l), <[l := a']> h) /\
       Jax.put (Np.NumpyArray l) inds (Np.Many vs) h
         = (Ok (Np.NumpyArray l), <[l := a']> h)) /\
    (forall h : gmap Np.loc (list T),
       Jax.put (Np.JaxArray a) inds (Np.Many vs) h = (Ok (Np.JaxArray a'), h) /\
       Jax.put (Np.Sequence a) inds (Np.Many vs) h = (Ok (Np.JaxArray a'), h)).
Proof.
  intros n pos Hin Hnd Hlen.
  exists (Np.assign a (pos <$> inds) vs).
  assert (Np.setitem_items a inds (Np.Many vs)
          = Ok (Np.assign a (pos <$> inds) vs)) as Hset.
  { unfold Np.setitem_items.
    rewrite <- Hlen, broadcast_values_same_length.
    by rewrite norm_indices_in_bounds. }
  assert (Jnp.at_set a inds (Np.Many vs)
          = Ok (Np.assign a (pos <$> inds) vs)) as Hat.
  { unfold Jnp.at_set. destruct inds as [|i inds]; [done|].
    rewrite <- Hlen, broadcast_values_same_length.
    by rewrite scatter_pairs_in_bounds. }
  split; [split; [|split]|split].
  - apply assign_length.
  - intros j i v Hi Hv.
    apply (assign_written _ _ _ j); try done.
    + apply Forall_fmap. eapply Forall_impl; [exact Hin|].
      intros k Hk. unfold compose, pos, n in *.
      destruct (Z.ltb_spec k 0); lia.
    + by rewrite list_lookup_fmap, Hi.
  - intros p Hp. by apply assign_other.
  - intros h l Hl.
    assert (Np.setitem (Np.NumpyArray l) inds (Np.Many vs) h
            = (Ok tt, <[l := Np.assign a (pos <$> inds) vs]> h)) as Hheap.
    { unfold Np.setitem, mbind, M_bind, get_world, lift, set_world.
      rewrite Hl, Hset. done. }
    unfold Fallback.put, Jax.put, mbind, M_bind. by rewrite Hheap.
  - intros h. unfold Jax.put, Jnp.asarray, mbind, M_bind, lift.
    by rewrite Hat.
Qed.

Lemma put_overwrites_inds_only_witness :
  exists a',
    (length a' = 4%nat /\
     (forall j i v, [-1; 1] !! j = Some i -> ["x"; "y"] !! j = Some v ->
        a' !! Z.to_nat (if i <? 0 then i + 4 else i) = Some v) /\
     (forall p, p ∉ [3; 1]%nat -> a' !! p = ["a"; "b"; "c"; "d"] !! p)) /\
    (forall (h : gmap Np.loc (list string)) (l : Np.loc),
       h !! l = Some ["a"; "b"; "c"; "d"] ->
       Fallback.put (Np.NumpyArray l) [-1; 1] (Np.Many ["x"; "y"]) h
         = (Ok (Np.NumpyArray l), <[l := a']> h) /\
       Jax.put (Np.NumpyArray l) [-1; 1] (Np.Many ["x"; "y"]) h
         = (Ok (Np.NumpyArray l), <[l := a']> h)) /\
    (forall h : gmap Np.loc (list string),
       Jax.put (Np.JaxArray ["a"; "b"; "c"; "d"]) [-1; 1] (Np.Many ["x"; "y"]) h
         = (Ok (Np.JaxArray a'), h) /\
       Jax.put (Np.Sequence ["a"; "b"; "c"; "d"]) [-1; 1] (Np.Many ["x"; "y"]) h
         = (Ok (Np.JaxArray a'), h)).
Proof.
  refine (put_overwrites_inds_only ["a"; "b"; "c"; "d"] [-1; 1] ["x"; "y"] _ _ _).
  - simpl. repeat (apply Forall_cons; split; [lia|]). apply Forall_nil_2.
  - simpl. apply NoDup_cons. split; [|apply NoDup_singleton].
    apply not_elem_of_cons. split; [lia|apply not_elem_of_nil].
  - reflexivity.
Defined.

(** The same call, run: the last and the second items are replaced. *)
Example put_runs :
  Fallback.put (Np.NumpyArray 1%positive) [-1; 1] (Np.Many ["x"; "y"])
    {[ 1%positive := ["a"; "b"; "c"; "d"] ]}
  = (Ok (Np.NumpyArray 1%positive), {[ 1%positive := ["a"; "y"; "c"; "x"] ]}) /\
  Jax.put (Np.JaxArray ["a"; "b"; "c"; "d"]) [-1; 1] (Np.Many ["x"; "y"])
    (∅ : gmap Np.loc (list string))
  = (Ok (Np.JaxArray ["a"; "y"; "c"; "x"]), ∅) /\
  Fallback.put (Np.NumpyArray 1%positive) [4] (Np.Many ["x"])
    {[ 1%positive := ["a"; "b"; "c"; "d"] ]}
  = (Raise IndexError, {[ 1%positive := ["a"; "b"; "c"; "d"] ]}).
Proof. repeat split. Qed.

(** ** The backend probe *)

Section ProbeFacts.
Import Probe.
Variable set_device : string -> gmap string string -> gmap string string.
Implicit Types (E : env) (st : state) (e : exn).

Lemma with_filters_same st : with_filters (filters st) st = st.
Proof. by destruct st. Qed.

(** The [with] statement puts the filters back, however it ends. *)
Lemma catch_warnings_filters {A} (body : M state A) st :
  filters (catch_warnings body st).2 = filters st.
Proof. unfold catch_warnings. by destruct (body st). Qed.

(** When the [try] suite raises, it raises from inside the [with]
    statement, so the filters are those of the start. *)
Lemma try_suite_raise_filters E st e st' :
  try_suite set_device E st = (Raise e, st') -> filters st' = filters st.
Proof.
  unfold try_suite, mbind, M_bind. intros Hrun.
  pose proof (catch_warnings_filters (with_body set_device E) st) as Hf.
  destruct (catch_warnings (with_body set_device E) st) as [[[]|e'] st1];
    simpl in *; [discriminate|].
  by inversion Hrun; subst.
Qed.

Lemma import_jax_failure E st e :
  import_jax E = Some e -> try_suite set_device E st = (Raise e, st).
Proof.
  intros Himp. destruct st.
  unfold try_suite, mbind, M_bind, catch_warnings, with_body, mbind, M_bind.
  simpl. rewrite Himp. reflexivity.
Qed.

(** The [except] suite, by the filter in front: the names and the device
    are set before the warning is issued. *)
Lemma except_suite_run st :
  except_suite set_device st =
  match current_action st with
  | Ignore =>
      (Ok tt,
       mk_state (set_device "cpu" (config st)) (filters st)
         (shown st) (stdout st ++ [using_numpy_backend])
         (Some numpy) (Some false))
  | Show =>
      (Ok tt,
       mk_state (set_device "cpu" (config st)) (filters st)
         (shown st ++ ["Failed to load JAX"]) (stdout st ++ [using_numpy_backend])
         (Some numpy) (Some false))
  | Error =>
      (Raise UserWarning,
       mk_state (set_device "cpu" (config st)) (filters st)
         (shown st) (stdout st) (Some numpy) (Some false))
  end.
Proof.
  destruct st as [c [|[] f] s o j u]; reflexivity.
Qed.

(** *** The GPU check (lines 22-27) *)

Lemma gpu_check_no_device E st :
  config st !! "kind" = Some "gpu" ->
  jax_devices_gpu E = Ok 0%nat ->
  gpu_check set_device E st =
  match current_action st with
  | Ignore => (Ok tt, with_config (set_device "cpu" (config st)) st)
  | Show =>
      (Ok tt,
       with_config (set_device "cpu" (config st))
         (with_shown
            (shown st ++
             ["JAX failed to detect GPU, are you sure you installed JAX with GPU support?"])
            st))
  | Error => (Raise UserWarning, st)
  end.
Proof.
  intros Hkind Hdev.
  unfold gpu_check, mbind, M_bind, config_get, warn. simpl.
  rewrite Hkind, Hdev. simpl.
  by destruct (current_action st).
Qed.

(** The check leaves the state alone when the GPU was not asked for, and
    when a GPU device is found. *)
Lemma gpu_check_not_requested E st :
  config st !! "kind" <> Some "gpu" -> gpu_check set_device E st = (Ok tt, st).
Proof.
  intros Hkind. unfold gpu_check, mbind, M_bind, config_get. simpl.
  by rewrite bool_decide_eq_false_2.
Qed.

Lemma gpu_check_device_found E st n :
  jax_devices_gpu E = Ok (S n) -> gpu_check set_device E st = (Ok tt, st).
Proof.
  intros Hdev. unfold gpu_check, mbind, M_bind, config_get. simpl.
  case_bool_decide; [|done]. by rewrite Hdev.
Qed.

(** Inside the [with] statement the filter in front is "ignore". *)
Lemma gpu_check_in_with_body E st :
  config st !! "kind" = Some "gpu" ->
  jax_devices_gpu E = Ok 0%nat ->
  current_action st = Ignore ->
  gpu_check set_device E st = (Ok tt, with_config (set_device "cpu" (config st)) st).
Proof. intros Hkind Hdev Hact. rewrite gpu_check_no_device by done. by rewrite Hact. Qed.

End ProbeFacts.

(** C8.  The probe recognises one failure.  A [ModuleNotFoundError] raised
    in the [try] suite (by [import jax] in particular) is caught: the
    [except] suite runs, [jnp] is bound to NumPy, [use_jax] is false and
    the device is the one set by [set_device("cpu")]; under filters that
    show warnings the probe then returns and the warning "Failed to load
    JAX" has been shown.  An exception of any other class raised in the
    [try] suite leaves the probe as it was raised. *)
Theorem probe_catches_only_module_not_found
    (set_device : string -> gmap string string -> gmap string string)
    (E : Probe.env) (st : Probe.state) :
  (forall e st', Probe.try_suite set_device E st = (Raise e, st') ->
     is_ModuleNotFoundError e = true ->
     exists r final,
       Probe.backend_probe set_device E st = (r, final) /\
       r <> Raise e /\
       Probe.jnp final = Some Probe.numpy /\
       Probe.use_jax final = Some false /\
       Probe.config final = set_device "cpu" (Probe.config st') /\
       (Probe.current_action st = Probe.Show ->
        r = Ok tt /\
        Probe.shown final = Probe.shown st' ++ ["Failed to load JAX"])) /\
  (forall e st', Probe.try_suite set_device E st = (Raise e, st') ->
     is_ModuleNotFoundError e = false ->
     Probe.backend_probe set_device E st = (Raise e, st')) /\
  (Probe.import_jax E = Some ModuleNotFoundError ->
   Probe.try_suite set_device E st = (Raise ModuleNotFoundError, st)).
Proof.
  split; [|split].
  - intros e st' Hrun Hmnf.
    assert (Probe.current_action st' = Probe.current_action st) as Hact.
    { unfold Probe.current_action.
      by rewrite (try_suite_raise_filters set_device E st e st' Hrun). }
    unfold Probe.backend_probe, Probe.try_except.
    rewrite Hrun, Hmnf, except_suite_run, Hact.
    destruct e; try discriminate Hmnf.
    destruct (Probe.current_action st); eexists _, _;
      (split; [reflexivity|]); simpl; repeat split; done.
  - intros e st' Hrun Hmnf.
    unfold Probe.backend_probe, Probe.try_except. by rewrite Hrun, Hmnf.
  - apply import_jax_failure.
Qed.

Lemma probe_catches_only_module_not_found_witness :
  exists r final,
    Probe.backend_probe (fun kind c => <["device" := kind]> (<["kind" := kind]> c))
      jax_missing gpu_requested = (r, final) /\
    r = Ok tt /\
    Probe.jnp final = Some Probe.numpy /\
    Probe.use_jax final = Some false /\
    Probe.config final = {[ "device" := "cpu"; "kind" := "cpu" ]} /\
    Probe.shown final = ["Failed to load JAX"].
Proof.
  destruct (probe_catches_only_module_not_found
              (fun kind c => <["device" := kind]> (<["kind" := kind]> c))
              jax_missing gpu_requested)
    as (Hcaught & _ & Himport).
  destruct (Hcaught _ _ (Himport eq_refl) eq_refl)
    as (r & final & Hrun & _ & Hjnp & Huse & Hconfig & Hshow).
  destruct (Hshow eq_refl) as [Hr Hshown].
  exists r, final. split_and!; done.
Defined.

(** What the probe does when JAX is there, the GPU was asked for and no GPU
    device is found: it returns, the device is set by [set_device("cpu")],
    and no warning is shown, whatever the filters were, because
    [warnings.warn] runs under the "ignore" filter of the [with]
    statement. *)
Lemma probe_gpu_downgrade_is_silent
    (set_device : string -> gmap string string -> gmap string string)
    (E : Probe.env) (st : Probe.state) :
  Probe.import_jax E = None -> Probe.import_jax_numpy E = None ->
  Probe.import_jaxlib E = None -> Probe.import_jax_config E = None ->
  Probe.jax_config_update E = None -> Probe.jnp_linspace_exp E = None ->
  Probe.config st !! "kind" = Some "gpu" ->
  Probe.jax_devices_gpu E = Ok 0%nat ->
  Probe.backend_probe set_device E st =
  (Ok tt,
   Probe.mk_state (set_device "cpu" (Probe.config st)) (Probe.filters st)
     (Probe.shown st) (Probe.stdout st ++ [Probe.using_jax_backend])
     (Some Probe.jax_numpy) (Some true)).
Proof.
  intros H1 H2 H3 H4 H5 H6 Hkind Hdev. destruct st as [c f s o j u].
  simpl in Hkind.
  unfold Probe.backend_probe, Probe.try_except, Probe.try_suite,
    Probe.catch_warnings, Probe.with_body, mbind, M_bind.
  simpl. rewrite H1, H2, H3, H4, H5. simpl.
  rewrite gpu_check_in_with_body by done. simpl.
  rewrite H6. reflexivity.
Qed.

(** When the GPU was not asked for, or a GPU device is found, a probe that
    meets no exception leaves [config] as it was. *)
Lemma probe_keeps_device_otherwise
    (set_device : string -> gmap string string -> gmap string string)
    (E : Probe.env) (st : Probe.state) :
  Probe.import_jax E = None -> Probe.import_jax_numpy E = None ->
  Probe.import_jaxlib E = None -> Probe.import_jax_config E = None ->
  Probe.jax_config_update E = None -> Probe.jnp_linspace_exp E = None ->
  Probe.config st !! "kind" <> Some "gpu" \/
    (exists n, Probe.jax_devices_gpu E = Ok (S n)) ->
  Probe.backend_probe set_device E st =
  (Ok tt,
   Probe.mk_state (Probe.config st) (Probe.filters st)
     (Probe.shown st) (Probe.stdout st ++ [Probe.using_jax_backend])
     (Some Probe.jax_numpy) (Some true)).
Proof.
  intros H1 H2 H3 H4 H5 H6 Hcase. destruct st as [c f s o j u].
  unfold Probe.backend_probe, Probe.try_except, Probe.try_suite,
    Probe.catch_warnings, Probe.with_body, mbind, M_bind.
  simpl. rewrite H1, H2, H3, H4, H5. simpl.
  destruct Hcase as [Hkind | [n Hdev]].
  - rewrite gpu_check_not_requested by done. simpl. rewrite H6. reflexivity.
  - rewrite (gpu_check_device_found _ _ _ n) by done. simpl. rewrite H6. reflexivity.
Qed.

(** C9, at the input where the code departs from it: JAX installed, the
    GPU asked for, no GPU device, Python's default filters.  The probe
    returns and the device is set by [set_device("cpu")], but the list of
    warnings shown stays empty. *)
Theorem gpu_warning_is_discarded
    (set_device : string -> gmap string string -> gmap string string) :
  Probe.backend_probe set_device jax_without_gpu gpu_requested =
  (Ok tt,
   Probe.mk_state (set_device "cpu" (Probe.config gpu_requested)) []
     [] [Probe.using_jax_backend] (Some Probe.jax_numpy) (Some true)).
Proof.
  rewrite probe_gpu_downgrade_is_silent; done.
Qed.

(** * Further properties of the shims *)

(** ** Loops *)

Lemma arange_lookup (start stop : Z) (k : nat) :
  (k < Z.to_nat (stop - start))%nat ->
  Np.arange start stop !! k = Some (start + Z.of_nat k).
Proof.
  intros Hk. unfold Np.arange.
  by rewrite list_lookup_fmap, lookup_seq_lt.
Qed.

Lemma arange_split (lower mid upper : Z) :
  lower <= mid <= upper ->
  Np.arange lower upper = Np.arange lower mid ++ Np.arange mid upper.
Proof.
  intros Hm. unfold Np.arange.
  replace (Z.to_nat (upper - lower))
    with (Z.to_nat (mid - lower) + Z.to_nat (upper - mid))%nat by lia.
  rewrite seq_app, fmap_app. f_equal.
  rewrite (Nat.add_comm 0), <- fmap_add_seq, <- list_fmap_compose.
  apply list_fmap_ext. intros i k _. simpl. lia.
Qed.

Lemma arange_first (lower upper : Z) :
  lower < upper -> Np.arange lower upper = lower :: Np.arange (lower + 1) upper.
Proof.
  intros Hlt. rewrite (arange_split lower (lower + 1) upper) by lia.
  unfold Np.arange at 1. replace (lower + 1 - lower) with 1 by lia.
  simpl. by rewrite Z.add_0_r.
Qed.

Section LoopFacts.
Context {W A : Type}.
Implicit Types (body : Z -> A -> M W A) (w : W).

Lemma for_loop_app {X} (xs ys : list X) (f : X -> A -> M W A) (val : A) w :
  for_loop (xs ++ ys) f val w
  = (val' ← for_loop xs f val; for_loop ys f val') w.
Proof.
  revert val w. induction xs as [|x xs IH]; intros val w; [done|].
  simpl. unfold mbind, M_bind in *.
  destruct (f x val w) as [[v|e] w1]; [|done]. apply IH.
Qed.

(** A trace only grows, and by indices of the range, in order. *)
Lemma for_loop_traced (xs : list Z) body (val : A) (log log' : list Z) w w' r :
  for_loop xs (Fallback.traced body) val (log, w) = (r, (log', w')) ->
  (exists k, (k <= length xs)%nat /\ log' = log ++ take k xs) /\
  (forall v, r = Ok v -> log' = log ++ xs).
Proof.
  revert val log w. induction xs as [|x xs IH]; intros val log w Hrun.
  - simpl in Hrun. inversion Hrun; subst.
    split; [exists 0%nat|]; by rewrite ?app_nil_r.
  - simpl in Hrun. unfold mbind, M_bind, Fallback.traced in Hrun.
    simpl in Hrun. destruct (body x val w) as [[v|e] w1].
    + destruct (IH v (log ++ [x]) w1 Hrun) as [(k & Hk & Hlog) Hok].
      split.
      * exists (S k). split; [simpl; lia|]. rewrite Hlog. simpl.
        by rewrite <- app_assoc.
      * intros v' Hv'. rewrite (Hok v' Hv'). by rewrite <- app_assoc.
    + inversion Hrun; subst. split; [|done].
      exists 1%nat. split; [simpl; lia|]. simpl. by rewrite take_0.
Qed.

End LoopFacts.

Lemma fori_loop_ranges_compose_aux {W A : Type} (lower mid upper : Z)
    (body_fun : Z -> A -> M W A) (init_val : A) (w : W) :
  lower <= mid <= upper ->
  Fallback.fori_loop lower upper body_fun init_val w
  = (val ← Fallback.fori_loop lower mid body_fun init_val;
     Fallback.fori_loop mid upper body_fun val) w.
Proof.
  intros Hm. unfold Fallback.fori_loop.
  rewrite (arange_split lower mid upper) by done. apply for_loop_app.
Qed.

(** X1.  Two consecutive ranges make one: [fori_loop] from [lower] to
    [upper] is [fori_loop] from [lower] to [mid], followed by [fori_loop]
    from [mid] to [upper] on the value that the first one returned. *)
Theorem fori_loop_ranges_compose {W A : Type} (lower mid upper : Z)
    (body_fun : Z -> A -> M W A) (init_val : A) (w : W) :
  lower <= mid <= upper ->
  Fallback.fori_loop lower upper body_fun init_val w
  = (val ← Fallback.fori_loop lower mid body_fun init_val;
     Fallback.fori_loop mid upper body_fun val) w.
Proof. apply fori_loop_ranges_compose_aux. Qed.

Lemma fori_loop_ranges_compose_witness :
  Fallback.fori_loop 0 5 (fun i val => mret (val * 10 + i)) 0 tt
  = (val ← Fallback.fori_loop 0 2 (fun i val => mret (val * 10 + i)) 0;
     Fallback.fori_loop 2 5 (fun i val => mret (val * 10 + i)) val) tt.
Proof.
  apply (fori_loop_ranges_compose 0 2 5). lia.
Defined.

(** X2.  The body is called with the indices [lower, lower + 1, ...] in
    increasing order and with nothing else: the indices seen are always a
    prefix of the range, and when the loop returns they are the whole range
    [lower, ..., upper - 1], so the body was called [max(0, upper - lower)]
    times. *)
Theorem fori_loop_visits_range_in_order {W A : Type} (lower upper : Z)
    (body_fun : Z -> A -> M W A) (init_val : A) (w : W) :
  let run :=
    Fallback.fori_loop lower upper (Fallback.traced body_fun) init_val ([], w) in
  (exists k : nat, (k <= Z.to_nat (upper - lower))%nat /\
     length (fst (snd run)) = k /\
     forall j : nat, (j < k)%nat -> fst (snd run) !! j = Some (lower + Z.of_nat j)) /\
  (forall v, fst run = Ok v ->
     length (fst (snd run)) = Z.to_nat (upper - lower)).
Proof.
  intros run.
  destruct run as [r [log' w']] eqn:Hrun. subst run.
  unfold Fallback.fori_loop in Hrun.
  destruct (for_loop_traced _ _ _ _ _ _ _ _ Hrun) as [(k & Hk & Hlog) Hok].
  simpl in *. rewrite arange_length in Hk. split.
  - exists k. split; [done|]. rewrite Hlog. split.
    + rewrite length_take, arange_length. lia.
    + intros j Hj. rewrite lookup_take_lt by done.
      apply arange_lookup. lia.
  - intros v Hv. by rewrite (Hok v Hv), arange_length.
Qed.

(** X3.  The loop stops at the first iteration that raises: when the
    iterations before index [k] return and the body raises at [k], the
    loop raises the same exception and leaves the world as that call left
    it, whatever the upper bound. *)
Theorem fori_loop_stops_at_exception {W A : Type} (lower k upper : Z)
    (body_fun : Z -> A -> M W A) (init_val val : A) (w w1 w2 : W) (e : exn) :
  lower <= k < upper ->
  Fallback.fori_loop lower k body_fun init_val w = (Ok val, w1) ->
  body_fun k val w1 = (Raise e, w2) ->
  Fallback.fori_loop lower upper body_fun init_val w = (Raise e, w2).
Proof.
  intros Hk Hbefore Hraise.
  rewrite (fori_loop_ranges_compose_aux lower k upper) by lia.
  unfold mbind, M_bind. rewrite Hbefore.
  unfold Fallback.fori_loop. rewrite arange_first by lia. simpl.
  unfold mbind, M_bind. by rewrite Hraise.
Qed.

Lemma fori_loop_stops_at_exception_witness :
  Fallback.fori_loop 0 100
    (fun i val => if i =? 2 then raise ValueError else mret (val + 1)) 0 tt
  = (Raise ValueError, tt).
Proof.
  apply (fori_loop_stops_at_exception 0 2 100 _ 0 2 tt tt tt ValueError);
    [lia|reflexivity|reflexivity].
Defined.

(** ** The while loop *)

Section WhileFacts.
Context {W A : Type}.
Implicit Types (cond_fun : A -> M W bool) (body_fun : A -> M W A).

(** An invariant of the loop: kept by the test and by the body, it holds
    when the loop ends. *)
Lemma while_loop_invariant_aux (I : A -> W -> Prop) cond_fun body_fun fuel :
  (forall v w b w1, I v w -> cond_fun v w = (Ok b, w1) -> I v w1) ->
  (forall v w v' w', I v w -> body_fun v w = (Ok v', w') -> I v' w') ->
  forall init_val w val w',
    I init_val w ->
    Fallback.while_loop fuel cond_fun body_fun init_val w = (Ok (Some val), w') ->
    I val w' /\ exists w0, I val w0 /\ cond_fun val w0 = (Ok false, w').
Proof.
  intros Hcond Hbody. induction fuel as [|fuel IH];
    intros init_val w val w' Hinit Hrun; [done|].
  simpl in Hrun. unfold mbind, M_bind in Hrun.
  destruct (cond_fun init_val w) as [[[]|e] w1] eqn:Hc; try done.
  - destruct (body_fun init_val w1) as [[v|e] w2] eqn:Hb; [|done].
    apply (IH v w2); [|done]. eauto.
  - inversion Hrun; subst. split; [by eapply Hcond|]. eauto.
Qed.

End WhileFacts.

(** X4.  A loop invariant: if a property of the value and the world holds
    at the start and is kept by every call of [cond_fun] and of [body_fun]
    that returns, then when [while_loop] returns, the property holds of the
    value returned, and the last thing that ran was a call of [cond_fun]
    on that value, which answered false. *)
Theorem while_loop_invariant {W A : Type} (I : A -> W -> Prop)
    (cond_fun : A -> M W bool) (body_fun : A -> M W A) (fuel : nat)
    (init_val val : A) (w w' : W) :
  (forall v w b w1, I v w -> cond_fun v w = (Ok b, w1) -> I v w1) ->
  (forall v w v' w', I v w -> body_fun v w = (Ok v', w') -> I v' w') ->
  I init_val w ->
  Fallback.while_loop fuel cond_fun body_fun init_val w = (Ok (Some val), w') ->
  I val w' /\ exists w0, I val w0 /\ cond_fun val w0 = (Ok false, w').
Proof. intros Hc Hb. by apply while_loop_invariant_aux. Qed.

Lemma while_loop_invariant_witness :
  Z.Even 0 /\
  exists w0 : unit,
    Z.Even 0 /\ @pure_fun unit Z bool (fun n => 0 <? n) 0 w0 = (Ok false, tt).
Proof.
  refine (while_loop_invariant (fun n _ => Z.Even n)
            (pure_fun (fun n => 0 <? n)) (pure_fun (fun n => n - 2)) 10 6 0 tt tt
            _ _ _ _).
  - intros v w b w1 Hv Hc. done.
  - intros v w v' w' [k Hk] Hb. inversion Hb; subst. exists (k - 1). lia.
  - exists 3. lia.
  - reflexivity.
Defined.

(** X5.  Termination with the value expected: for a test and a body
    without effects, if the test holds on the first [k] iterates of the
    body from [init_val] and fails on the [k]-th, then [while_loop] returns
    the [k]-th iterate (with any bound on the iterations above [k]) and
    leaves the world alone. *)
Theorem while_loop_returns_first_failing_iterate {W A : Type}
    (c : A -> bool) (b : A -> A) (init_val : A) (k fuel : nat) (w : W) :
  (forall j, (j < k)%nat -> c (Nat.iter j b init_val) = true) ->
  c (Nat.iter k b init_val) = false ->
  (k < fuel)%nat ->
  Fallback.while_loop fuel (pure_fun c) (pure_fun b) init_val w
  = (Ok (Some (Nat.iter k b init_val)), w).
Proof.
  revert init_val fuel.
  induction k as [|k IH]; intros init_val fuel Htrue Hfalse Hfuel;
    (destruct fuel as [|fuel]; [lia|]).
  - simpl in *. unfold mbind, M_bind, pure_fun. simpl. by rewrite Hfalse.
  - assert (c init_val = true) as H0 by (apply (Htrue 0%nat); lia).
    rewrite Nat.iter_succ_r in *.
    cbn [Fallback.while_loop]. unfold mbind at 1, M_bind at 1.
    unfold pure_fun at 1. cbn [mret M_ret]. rewrite H0.
    unfold mbind at 1, M_bind at 1. unfold pure_fun at 2. cbn [mret M_ret].
    apply IH; [|done|lia].
    intros j Hj. rewrite <- Nat.iter_succ_r. apply Htrue. lia.
Qed.

Lemma while_loop_returns_first_failing_iterate_witness :
  Fallback.while_loop 50 (pure_fun (fun n : Z => 1 <? n)) (pure_fun (fun n => n / 2)) 40 tt
  = (Ok (Some 1), tt).
Proof.
  refine (while_loop_returns_first_failing_iterate
            (fun n : Z => 1 <? n) (fun n => n / 2) 40 5 50 tt _ _ _).
  - intros j Hj. do 5 (destruct j as [|j]; [reflexivity|]). lia.
  - reflexivity.
  - lia.
Defined.

(** ** [switch], once more *)

(** X6.  With no branch at all, [switch] raises [IndexError] for every
    index, and nothing else happens: the clamped index is -1, which an
    empty sequence does not have. *)
Theorem switch_without_branches_raises {W A B : Type} (index : Z) (operand : A)
    (w : W) :
  Fallback.switch index ([] : list (A -> M W B)) operand w = (Raise IndexError, w).
Proof.
  unfold Fallback.switch, getitem. cbv zeta. simpl.
  by destruct (_ || _).
Qed.

(** X7.  On two branches [switch] is [cond]: every index above 0 runs the
    second branch and every other index the first, so
    [switch(index, [false_fun, true_fun], operand)] is
    [cond(index > 0, true_fun, false_fun, operand)]. *)
Theorem switch_on_two_branches_is_cond {W A B : Type} (index : Z)
    (true_fun false_fun : A -> M W B) (operand : A) :
  Fallback.switch index [false_fun; true_fun] operand
  = Fallback.cond (0 <? index) true_fun false_fun operand.
Proof.
  unfold Fallback.switch, Fallback.cond. cbv zeta.
  assert (Np.clip index 0 (len [false_fun; true_fun] - 1)
          = if 0 <? index then 1 else 0) as ->.
  { unfold Np.clip, len. simpl. destruct (Z.ltb_spec 0 index); lia. }
  by destruct (0 <? index).
Qed.

(** ** The vectorised map, once more *)

Section MoreVmapFacts.
Context {W X T : Type}.
Implicit Types (w : W).

Lemma comprehension_length (fun_ : X -> M W (Np.ndarray T)) (xs : list X) w outs w' :
  comprehension fun_ xs w = (Ok outs, w') -> length outs = length xs.
Proof.
  revert w outs. induction xs as [|x xs IH]; intros w outs Hrun; simpl in Hrun.
  - by inversion Hrun.
  - unfold mbind, M_bind in Hrun.
    destruct (fun_ x w) as [[y|e] w1]; [|done].
    destruct (comprehension fun_ xs w1) as [[ys|e] w2] eqn:Hys; [|done].
    inversion Hrun; subst. simpl. f_equal. by eapply IH.
Qed.

Lemma comprehension_raises (fun_ : X -> M W (Np.ndarray T)) (xs ys : list X) (x : X) w outs w1 e w2 :
  comprehension fun_ xs w = (Ok outs, w1) ->
  fun_ x w1 = (Raise e, w2) ->
  comprehension fun_ (xs ++ x :: ys) w = (Raise e, w2).
Proof.
  revert w outs. induction xs as [|x' xs IH]; intros w outs Hrun Hraise;
    simpl in *; unfold mbind, M_bind in *.
  - inversion Hrun; subst. by rewrite Hraise.
  - destruct (fun_ x' w) as [[y|e'] w']; [|done].
    destruct (comprehension fun_ xs w') as [[ys'|e'] w''] eqn:Hys; [|done].
    inversion Hrun; subst. by rewrite (IH _ _ Hys Hraise).
Qed.

End MoreVmapFacts.

Section MoreStackFacts.
Context {T : Type}.
Implicit Types (a : Np.ndarray T) (arrays : list (Np.ndarray T)).

Lemma stack_unequal_shapes a0 arrays a (axis : Z) :
  a ∈ arrays -> Np.shape a <> Np.shape a0 ->
  Np.stack (a0 :: arrays) axis = Raise ValueError.
Proof.
  intros Ha Hne. unfold Np.stack.
  destruct (forallb (Np.same_shape a0) (a0 :: arrays)) eqn:Hall; [|done].
  rewrite forallb_forall in Hall.
  assert (Np.same_shape a0 a = true) as Hsame.
  { apply Hall. right. by apply list_elem_of_In. }
  unfold Np.same_shape in Hsame. apply bool_decide_eq_true in Hsame. congruence.
Qed.

Lemma stack_axis_out_of_range s a0 arrays (axis : Z) :
  Np.all_of_shape s (a0 :: arrays) ->
  axis < - (len s + 1) \/ len s < axis ->
  Np.stack (a0 :: arrays) axis = Raise AxisError.
Proof.
  intros Hall Hax.
  assert (Np.shape a0 = s) as Hs0.
  { unfold Np.all_of_shape in Hall. by apply Forall_cons_1 in Hall as [[? _] _]. }
  unfold Np.stack. rewrite (same_shape_all s) by done.
  unfold Np.normalize_axis_index, Np.ndim. rewrite Hs0. unfold len in *.
  destruct (Z.ltb_spec axis (- Z.of_nat (S (length s)))); simpl; [done|].
  destruct (Z.leb_spec (Z.of_nat (S (length s))) axis); simpl; [done|]. lia.
Qed.

(** Along the leading axis the buffers follow one another. *)
Lemma stack_leading_axis s a0 arrays :
  Np.all_of_shape s (a0 :: arrays) ->
  Np.stack (a0 :: arrays) 0
  = Ok (Np.mk_ndarray (S (length arrays) :: s)
          (flat_map Np.data (a0 :: arrays))).
Proof.
  intros Hall.
  assert (Np.shape a0 = s) as Hs0.
  { unfold Np.all_of_shape in Hall. by apply Forall_cons_1 in Hall as [[? _] _]. }
  unfold Np.stack. rewrite (same_shape_all s) by done.
  unfold Np.normalize_axis_index. simpl. rewrite Hs0, drop_0. simpl.
  do 2 f_equal. rewrite app_nil_r.
  change (flat_map (fun a => take (Np.size s) (drop 0 (Np.data a))) (a0 :: arrays)
          = flat_map Np.data (a0 :: arrays)).
  apply flat_map_ext_elem. intros a Ha. rewrite drop_0.
  unfold Np.all_of_shape in Hall. rewrite Forall_forall in Hall.
  destruct (Hall a Ha) as [Hs Hwf]. unfold Np.wf in Hwf.
  apply take_ge. rewrite Hwf, Hs. done.
Qed.

(** The stack has as many elements as its shape says. *)
Lemma stack_wf s a0 arrays (axis : Z) r :
  Np.all_of_shape s (a0 :: arrays) ->
  Np.stack (a0 :: arrays) axis = Ok r -> Np.wf r.
Proof.
  intros Hall.
  assert (Np.shape a0 = s) as Hs0.
  { unfold Np.all_of_shape in Hall. by apply Forall_cons_1 in Hall as [[? _] _]. }
  unfold Np.stack. rewrite (same_shape_all s) by done.
  destruct (Np.normalize_axis_index axis (S (Np.ndim a0))) as [ax|e] eqn:Hax;
    simpl; [|done].
  intros [= <-]. unfold Np.wf. simpl. rewrite Hs0.
  rewrite size_app.
  change (Np.size (S (length arrays) :: drop ax s))
    with (S (length arrays) * Np.size (drop ax s))%nat.
  rewrite (uniform_pieces_length _ _ (S (length arrays) * Np.size (drop ax s))).
  - by rewrite length_seq.
  - intros o Ho. apply elem_of_seq in Ho.
    change (S (length arrays)) with (length (a0 :: arrays)).
    apply (uniform_pieces_length
             (fun a => take (Np.size (drop ax s))
                         (drop (o * Np.size (drop ax s)) (Np.data a)))
             (a0 :: arrays)).
    intros a Ha.
    unfold Np.all_of_shape in Hall. rewrite Forall_forall in Hall.
    destruct (Hall a Ha) as [Hs Hwf]. unfold Np.wf in Hwf.
    rewrite Hs, <- (size_take_drop s ax) in Hwf.
    rewrite length_take, length_drop, Hwf. nia.
Qed.

End MoreStackFacts.

(** ** Elements of a stack, by their multi-index *)

Lemma ravel_app (s1 s2 idx1 idx2 : list nat) :
  length idx1 = length s1 ->
  Np.ravel (s1 ++ s2) (idx1 ++ idx2)
  = (Np.ravel s1 idx1 * Np.size s2 + Np.ravel s2 idx2)%nat.
Proof.
  revert idx1. induction s1 as [|d s1 IH]; intros [|i idx1] Hlen; try done.
  simpl in *. rewrite IH by lia. rewrite size_app. lia.
Qed.

Lemma ravel_lt (s idx : list nat) :
  Forall2 lt idx s -> (Np.ravel s idx < Np.size s)%nat.
Proof.
  intros Hin. induction Hin as [|i d idx s Hid Hin IH].
  - unfold Np.size. simpl. lia.
  - change (Np.size (d :: s)) with (d * Np.size s)%nat. simpl. nia.
Qed.

Section StackItems.
Context {T : Type} `{!Inhabited T}.
Implicit Types (a : Np.ndarray T) (arrays : list (Np.ndarray T)).

(** The element of the stack at a position of the inputs, with the number
    of the input inserted at the new axis, is the element of that input. *)
Lemma stack_item s a0 arrays (axis : Z) (i : nat) a (idx : list nat) :
  Np.all_of_shape s (a0 :: arrays) ->
  - (len s + 1) <= axis <= len s ->
  (a0 :: arrays) !! i = Some a ->
  Forall2 lt idx s ->
  let ax := Z.to_nat (if axis <? 0 then axis + (len s + 1) else axis) in
  exists r,
    Np.stack (a0 :: arrays) axis = Ok r /\
    Np.item r (take ax idx ++ i :: drop ax idx) = Np.item a idx.
Proof.
  intros Hall Hax Hi Hidx ax.
  assert (Np.shape a0 = s) as Hs0.
  { unfold Np.all_of_shape in Hall. by apply Forall_cons_1 in Hall as [[? _] _]. }
  assert (ax <= length s)%nat as Hle.
  { subst ax. unfold len in *. destruct (Z.ltb_spec axis 0); lia. }
  assert (a ∈ a0 :: arrays) as Ha by (by eapply list_elem_of_lookup_2).
  assert (Np.shape a = s) as Hsa.
  { unfold Np.all_of_shape in Hall. rewrite Forall_forall in Hall.
    by destruct (Hall a Ha). }
  unfold Np.stack.
  rewrite (same_shape_all s) by done.
  rewrite normalize_axis_index_valid
    by (unfold Np.ndim, len in *; rewrite Hs0; lia).
  replace (Z.of_nat (S (Np.ndim a0))) with (len s + 1)
    by (unfold Np.ndim, len; rewrite Hs0; lia).
  fold ax. simpl. rewrite Hs0.
  eexists. split; [reflexivity|].
  unfold Np.item. simpl. rewrite Hsa.
  pose proof (Forall2_length _ _ _ Hidx) as Hlen.
  set (o := Np.ravel (take ax s) (take ax idx)).
  set (q := Np.ravel (drop ax s) (drop ax idx)).
  set (inner := Np.size (drop ax s)).
  set (n := S (length arrays)).
  assert (o < Np.size (take ax s))%nat as Ho by (by apply ravel_lt, Forall2_take).
  assert (q < inner)%nat as Hq by (by apply ravel_lt, Forall2_drop).
  assert (i < n)%nat as Hin by (by apply lookup_lt_Some in Hi).
  assert (Np.ravel (take ax s ++ n :: drop ax s) (take ax idx ++ i :: drop ax idx)
          = ((o * n + i) * inner + q)%nat) as ->.
  { rewrite ravel_app by (rewrite !length_take; lia).
    change (Np.size (n :: drop ax s)) with (n * inner)%nat.
    simpl. fold inner q o. lia. }
  assert (Np.ravel s idx = (o * inner + q)%nat) as ->.
  { rewrite <- (take_drop ax s) at 1. rewrite <- (take_drop ax idx) at 1.
    apply ravel_app. rewrite !length_take. lia. }
  rewrite !list_lookup_total_alt. f_equal.
  pose proof (stack_data_slice s (a0 :: arrays) ax i o a Hall Hi Ho) as Hslice.
  cbv zeta in Hslice. fold inner in Hslice.
  change (length (a0 :: arrays)) with n in Hslice.
  apply (f_equal (fun l => l !! q)) in Hslice.
  rewrite !lookup_take_lt, !lookup_drop in Hslice by done.
  exact Hslice.
Qed.

End StackItems.

(** X8.  [vmap] of a function with effects: when the calls on the inputs,
    made in order, all return, and what they return is a non-empty list of
    well-formed arrays of one shape, [fun_vmap] returns a well-formed
    array whose slices along [out_axes] are the arrays returned, in the
    order of the calls, and leaves the world as the last call left it. *)
Theorem vmap_with_effects {W X T : Type} (fun_ : X -> M W (Np.ndarray T))
    (out_axes : Z) (fun_inputs : list X) (outs : list (Np.ndarray T))
    (s : list nat) (w w' : W) :
  comprehension fun_ fun_inputs w = (Ok outs, w') ->
  fun_inputs <> [] ->
  Np.all_of_shape s outs ->
  - (len s + 1) <= out_axes <= len s ->
  let ax := Z.to_nat (if out_axes <? 0 then out_axes + (len s + 1) else out_axes) in
  exists r,
    Fallback.vmap fun_ out_axes fun_inputs w = (Ok r, w') /\
    Np.wf r /\
    Np.shape r = take ax s ++ length fun_inputs :: drop ax s /\
    forall i a, outs !! i = Some a -> Np.take_along r i ax = a.
Proof.
  intros Hrun Hne Hall Hax ax.
  pose proof (comprehension_length _ _ _ _ _ Hrun) as Hlen.
  destruct outs as [|a0 outs]; [by destruct fun_inputs|].
  destruct (stack_slices s a0 outs out_axes Hall Hax)
    as (r & Hstack & Hshape & _ & Hslice).
  exists r. rewrite (vmap_unfold _ _ _ _ _ _ Hrun), Hstack.
  split; [done|]. split; [by eapply stack_wf|].
  split; [|done]. fold ax in Hshape. rewrite Hshape. simpl in Hlen. by rewrite Hlen.
Qed.

Lemma vmap_with_effects_witness :
  exists r,
    Fallback.vmap
      (fun (x : Z) (calls : nat) => (Ok (Np.mk_ndarray [2%nat] [x; Z.of_nat calls]), S calls))
      0 [7; 8; 9] 0%nat = (Ok r, 3%nat) /\
    Np.wf r /\
    Np.shape r = [3; 2]%nat /\
    forall i a,
      [Np.mk_ndarray [2%nat] [7; 0]; Np.mk_ndarray [2%nat] [8; 1];
       Np.mk_ndarray [2%nat] [9; 2]] !! i = Some a ->
      Np.take_along r i 0 = a.
Proof.
  refine (vmap_with_effects
            (fun (x : Z) (calls : nat) =>
               (Ok (Np.mk_ndarray [2%nat] [x; Z.of_nat calls]), S calls))
            0 [7; 8; 9] _ [2%nat] 0%nat 3%nat eq_refl _ _ _).
  - discriminate.
  - repeat constructor.
  - unfold len. simpl. lia.
Defined.

(** X9.  [vmap] stops at the first input on which the function raises:
    the exception leaves [fun_vmap] as it was raised, the function is not
    called on the inputs that follow, and [np.stack] is not reached. *)
Theorem vmap_stops_at_first_exception {W X T : Type}
    (fun_ : X -> M W (Np.ndarray T)) (out_axes : Z) (before after : list X)
    (x : X) (outs : list (Np.ndarray T)) (w w1 w2 : W) (e : exn) :
  comprehension fun_ before w = (Ok outs, w1) ->
  fun_ x w1 = (Raise e, w2) ->
  Fallback.vmap fun_ out_axes (before ++ x :: after) w = (Raise e, w2).
Proof.
  intros Hrun Hraise. unfold Fallback.vmap, mbind, M_bind.
  by rewrite (comprehension_raises _ _ _ _ _ _ _ _ _ Hrun Hraise).
Qed.

Lemma vmap_stops_at_first_exception_witness :
  Fallback.vmap
    (fun (x : Z) (calls : nat) =>
       if x <? 0 then (Raise RuntimeError, S calls)
       else (Ok (Np.mk_ndarray [] [x]), S calls))
    0 ([1; 2] ++ -3 :: [4; 5]) 0%nat
  = (Raise RuntimeError, 3%nat).
Proof.
  by apply (vmap_stops_at_first_exception _ 0 [1; 2] [4; 5] (-3)
              [Np.mk_ndarray [] [1]; Np.mk_ndarray [] [2]] 0%nat 2%nat 3%nat).
Defined.

(** X10.  Results of unequal shapes are refused: if the function returns,
    on some input, an array whose shape differs from that of the first
    result, [fun_vmap] raises [ValueError], whatever [out_axes] is. *)
Theorem vmap_rejects_unequal_shapes {W X T : Type} (f : X -> Np.ndarray T)
    (out_axes : Z) (x0 x : X) (rest : list X) (w : W) :
  x ∈ rest ->
  Np.shape (f x) <> Np.shape (f x0) ->
  Fallback.vmap (pure_fun f) out_axes (x0 :: rest) w = (Raise ValueError, w).
Proof.
  intros Hx Hne.
  rewrite (vmap_unfold _ _ _ _ _ _ (comprehension_pure f (x0 :: rest) w)).
  rewrite fmap_cons.
  by rewrite (stack_unequal_shapes (f x0) (f <$> rest) (f x) out_axes
                (list_elem_of_fmap_2 f _ _ Hx) Hne).
Qed.

Lemma vmap_rejects_unequal_shapes_witness :
  Fallback.vmap (pure_fun (fun n : nat => Np.mk_ndarray [n] (replicate n 0)))
    (-1) [2; 2; 3]%nat tt
  = (Raise ValueError, tt).
Proof.
  apply (vmap_rejects_unequal_shapes _ (-1) 2%nat 3%nat).
  - apply list_elem_of_lookup. by exists 1%nat.
  - discriminate.
Defined.

(** X11.  An axis that the result does not have is refused: on a
    non-empty sequence of results of one shape, [fun_vmap] raises
    [AxisError] when [out_axes] is below [-(ndim + 1)] or above [ndim]. *)
Theorem vmap_rejects_axis_out_of_range {W X T : Type} (f : X -> Np.ndarray T)
    (out_axes : Z) (fun_inputs : list X) (s : list nat) (w : W) :
  fun_inputs <> [] ->
  Np.all_of_shape s (f <$> fun_inputs) ->
  out_axes < - (len s + 1) \/ len s < out_axes ->
  Fallback.vmap (pure_fun f) out_axes fun_inputs w = (Raise AxisError, w).
Proof.
  intros Hne Hall Hax. destruct fun_inputs as [|x0 xs]; [done|].
  rewrite (vmap_unfold _ _ _ _ _ _ (comprehension_pure f (x0 :: xs) w)).
  rewrite fmap_cons in *.
  by rewrite (stack_axis_out_of_range s _ _ _ Hall Hax).
Qed.

Lemma vmap_rejects_axis_out_of_range_witness :
  Fallback.vmap (pure_fun (fun x : Z => Np.mk_ndarray [2%nat] [x; x])) (-3) [1; 2] tt
  = (Raise AxisError, tt).
Proof.
  apply (vmap_rejects_axis_out_of_range _ (-3) [1; 2] [2%nat]).
  - discriminate.
  - repeat constructor.
  - unfold len. simpl. lia.
Defined.

(** X12.  With the default [out_axes = 0] the results are laid end to
    end: on [n >= 1] inputs with well-formed results of shape [s],
    [fun_vmap] returns the array of shape [(n,) + s] whose buffer is the
    concatenation of the buffers of the results. *)
Theorem vmap_default_axis_concatenates {W X T : Type} (f : X -> Np.ndarray T)
    (fun_inputs : list X) (s : list nat) (w : W) :
  fun_inputs <> [] ->
  Np.all_of_shape s (f <$> fun_inputs) ->
  Fallback.vmap0 (pure_fun f) fun_inputs w
  = (Ok (Np.mk_ndarray (length fun_inputs :: s)
           (flat_map (fun x => Np.data (f x)) fun_inputs)), w).
Proof.
  intros Hne Hall. destruct fun_inputs as [|x0 xs]; [done|].
  unfold Fallback.vmap0.
  rewrite (vmap_unfold _ _ _ _ _ _ (comprehension_pure f (x0 :: xs) w)).
  rewrite fmap_cons in *. rewrite (stack_leading_axis s) by done.
  rewrite length_fmap. do 3 f_equal.
  change (flat_map Np.data (f <$> x0 :: xs)
          = flat_map (fun x => Np.data (f x)) (x0 :: xs)).
  generalize (x0 :: xs). intros l.
  induction l as [|y l IH]; [done|]. simpl. f_equal. exact IH.
Qed.

Lemma vmap_default_axis_concatenates_witness :
  Fallback.vmap0 (pure_fun (fun x : Z => Np.mk_ndarray [2%nat] [x; - x])) [1; 2; 3] tt
  = (Ok (Np.mk_ndarray [3; 2]%nat [1; -1; 2; -2; 3; -3]), tt).
Proof.
  refine (vmap_default_axis_concatenates
            (fun x : Z => Np.mk_ndarray [2%nat] [x; - x]) [1; 2; 3] [2%nat] tt _ _).
  - discriminate.
  - repeat constructor.
Defined.

(** X13.  Element by element: for results of shape [s], every multi-index
    [idx] within [s] and every input number [i], the element of the array
    returned by [fun_vmap] at [idx] with [i] inserted at position
    [out_axes] is the element at [idx] of the function's result on the
    [i]-th input. *)
Theorem vmap_elements {W X T : Type} `{!Inhabited T} (f : X -> Np.ndarray T)
    (out_axes : Z) (fun_inputs : list X) (s : list nat) (w : W)
    (i : nat) (x : X) (idx : list nat) :
  Np.all_of_shape s (f <$> fun_inputs) ->
  - (len s + 1) <= out_axes <= len s ->
  fun_inputs !! i = Some x ->
  Forall2 lt idx s ->
  let ax := Z.to_nat (if out_axes <? 0 then out_axes + (len s + 1) else out_axes) in
  exists r,
    Fallback.vmap (pure_fun f) out_axes fun_inputs w = (Ok r, w) /\
    Np.item r (take ax idx ++ i :: drop ax idx) = Np.item (f x) idx.
Proof.
  intros Hall Hax Hi Hidx ax.
  destruct fun_inputs as [|x0 xs]; [done|].
  rewrite fmap_cons in Hall.
  destruct (stack_item s (f x0) (f <$> xs) out_axes i (f x) idx Hall Hax)
    as (r & Hstack & Hitem); [|done|].
  { by rewrite <- fmap_cons, list_lookup_fmap, Hi. }
  exists r. split; [|done].
  rewrite (vmap_unfold _ _ _ _ _ _ (comprehension_pure f (x0 :: xs) w)).
  by rewrite fmap_cons, Hstack.
Qed.

Lemma vmap_elements_witness :
  exists r,
    Fallback.vmap
      (pure_fun (fun x : Z => Np.mk_ndarray [2; 2]%nat [x; x + 1; x + 2; x + 3]))
      1 [10; 20; 30] tt = (Ok r, tt) /\
    Np.item r [1; 2; 0]%nat
    = Np.item (Np.mk_ndarray [2; 2]%nat [30; 31; 32; 33]) [1; 0]%nat.
Proof.
  refine (vmap_elements
            (fun x : Z => Np.mk_ndarray [2; 2]%nat [x; x + 1; x + 2; x + 3])
            1 [10; 20; 30] [2; 2]%nat tt 2 30 [1; 0]%nat _ _ eq_refl _).
  - repeat constructor.
  - unfold len. simpl. lia.
  - repeat constructor.
Defined.

(** ** The sign shim, once more *)

Lemma int_sign_values (v : Z) :
  let z := if Np.eqb v (Np.of_int 0) then Np.of_int 1 else Np.sgn v in
  z = 1 \/ z = -1.
Proof.
  simpl. destruct (Z.eqb_spec v 0); [by left|].
  destruct (Z.lt_total v 0) as [Hlt|[Heq|Hgt]]; [right|done|left].
  - apply Z.sgn_neg. lia.
  - apply Z.sgn_pos. lia.
Qed.

Lemma float64_sign_values (v : Np.float64) :
  let z := if Np.eqb v (Np.of_int 0) then Np.of_int 1 else Np.sgn v in
  z = Np.float64_of_int 1 \/ z = Np.float64_of_int (-1) \/
  (z = S754_nan /\ v = S754_nan).
Proof. destruct v as [[]|[]| |[] mv ev]; simpl; eauto. Qed.

Lemma int_sign_twice (v : Z) :
  let f := fun v : Z => if Np.eqb v (Np.of_int 0) then Np.of_int 1 else Np.sgn v in
  f (f v) = f v.
Proof. intros f. subst f. destruct (int_sign_values v) as [H|H]; simpl in *; by rewrite H. Qed.

Lemma float64_sign_twice (v : Np.float64) :
  let f := fun v : Np.float64 =>
    if Np.eqb v (Np.of_int 0) then Np.of_int 1 else Np.sgn v in
  f (f v) = f v.
Proof. destruct v as [[]|[]| |[] mv ev]; reflexivity. Qed.

Section SignTwice.
Context {T : Type} `{!Np.Scalar T}.

Lemma atleast_1d_idem (x : Np.ndarray T) :
  Np.atleast_1d (Np.atleast_1d x) = Np.atleast_1d x.
Proof. unfold Np.atleast_1d. by destruct x as [[|d s] dx]. Qed.

Lemma sign_twice (x y : Np.ndarray T) :
  Np.wf x ->
  (forall v : T,
     let f := fun v : T => if Np.eqb v (Np.of_int 0) then Np.of_int 1 else Np.sgn v in
     f (f v) = f v) ->
  Fallback.sign x = Ok y -> Fallback.sign y = Ok y.
Proof.
  intros Hwf Hf Hy. rewrite sign_elementwise in Hy by done.
  assert (y = Np.mk_ndarray (Np.shape (Np.atleast_1d x))
                ((fun v : T => if Np.eqb v (Np.of_int 0) then Np.of_int 1
                               else Np.sgn v) <$> Np.data x)) as ->
    by (by inversion Hy).
  clear Hy.
  rewrite sign_elementwise.
  - simpl. f_equal. f_equal.
    + unfold Np.atleast_1d. simpl. by destruct x as [[|d s] dx].
    + rewrite <- list_fmap_compose. apply list_fmap_ext. intros i v _. apply Hf.
  - unfold Np.wf. simpl. rewrite length_fmap.
    pose proof (atleast_1d_wf x Hwf) as H1. unfold Np.wf in H1.
    by rewrite atleast_1d_data in H1.
Qed.

End SignTwice.

(** X14.  [sign] never returns zero.  On an integer array every element
    of the result is 1 or -1; on a [float64] array every element is 1,
    -1, or NaN, and NaN only where the input is NaN. *)
Theorem sign_has_no_zero :
  (forall (x y : Np.ndarray Z), Np.wf x -> Fallback.sign x = Ok y ->
     forall i v, Np.data y !! i = Some v -> v = 1 \/ v = -1) /\
  (forall (x y : Np.ndarray Np.float64), Np.wf x -> Fallback.sign x = Ok y ->
     forall i v, Np.data y !! i = Some v ->
       v = Np.float64_of_int 1 \/ v = Np.float64_of_int (-1) \/
       (v = S754_nan /\ Np.data x !! i = Some S754_nan)).
Proof.
  split; intros x y Hwf Hy i v Hv; rewrite sign_elementwise in Hy by done;
    inversion Hy; subst y; simpl in Hv;
    rewrite list_lookup_fmap in Hv;
    destruct (Np.data x !! i) as [u|] eqn:Hu; try done;
    simpl in Hv; inversion Hv as [Hv']; clear Hv.
  - apply (int_sign_values u).
  - destruct (float64_sign_values u) as [H|[H|[H ->]]]; cbv zeta in H; eauto.
Qed.

(** X15.  [sign] is idempotent: applied to its own result it returns that
    result again, on integer arrays and on [float64] arrays, in both
    halves of the module. *)
Theorem sign_is_idempotent :
  (forall (x y : Np.ndarray Z), Np.wf x -> Fallback.sign x = Ok y ->
     Fallback.sign y = Ok y /\ Jax.sign y = Ok y) /\
  (forall (x y : Np.ndarray Np.float64), Np.wf x -> Fallback.sign x = Ok y ->
     Fallback.sign y = Ok y /\ Jax.sign y = Ok y).
Proof.
  split; intros x y Hwf Hy; split;
    try change (Jax.sign y) with (Fallback.sign y).
  - by apply (sign_twice x y Hwf int_sign_twice).
  - by apply (sign_twice x y Hwf int_sign_twice).
  - by apply (sign_twice x y Hwf float64_sign_twice).
  - by apply (sign_twice x y Hwf float64_sign_twice).
Qed.

Lemma sign_has_no_zero_witness :
  Fallback.sign (Np.mk_ndarray [4%nat] [5; -3; 0; 2])
    = Ok (Np.mk_ndarray [4%nat] [1; -1; 1; 1]) /\
  ((1 : Z) = 1 \/ (1 : Z) = -1).
Proof.
  split; [reflexivity|].
  exact (proj1 sign_has_no_zero (Np.mk_ndarray [4%nat] [5; -3; 0; 2])
           (Np.mk_ndarray [4%nat] [1; -1; 1; 1]) eq_refl eq_refl 2%nat 1 eq_refl).
Defined.

Lemma sign_is_idempotent_witness :
  Fallback.sign (Np.mk_ndarray [3%nat] [Np.float64_of_int 1; Np.float64_of_int (-1); S754_nan])
    = Ok (Np.mk_ndarray [3%nat] [Np.float64_of_int 1; Np.float64_of_int (-1); S754_nan]) /\
  Jax.sign (Np.mk_ndarray [3%nat] [Np.float64_of_int 1; Np.float64_of_int (-1); S754_nan])
    = Ok (Np.mk_ndarray [3%nat] [Np.float64_of_int 1; Np.float64_of_int (-1); S754_nan]).
Proof.
  exact (proj2 sign_is_idempotent
           (Np.mk_ndarray [3%nat] [S754_infinity false; S754_infinity true; S754_nan])
           (Np.mk_ndarray [3%nat]
              [Np.float64_of_int 1; Np.float64_of_int (-1); S754_nan])
           eq_refl eq_refl).
Defined.

(** ** Indexed assignment, once more *)

Section MorePutFacts.
Context {T : Type}.
Implicit Types (a : list T) (pos : list nat) (vs : list T) (inds : list Z).

(** With repeated positions the value written last stays. *)
Lemma assign_last a pos vs (j p : nat) v :
  (p < length a)%nat ->
  pos !! j = Some p -> vs !! j = Some v ->
  (forall j' p', (j < j')%nat -> pos !! j' = Some p' -> p' <> p) ->
  Np.assign a pos vs !! p = Some v.
Proof.
  revert a vs j. induction pos as [|q pos IH]; intros a [|u vs] j Hlt Hp Hv Hlast;
    try done.
  rewrite assign_cons. destruct j as [|j]; simpl in *.
  - inversion Hp; inversion Hv; subst.
    rewrite assign_other; [by apply list_lookup_insert_eq|].
    intros Hin. apply list_elem_of_lookup in Hin as [j' Hj'].
    apply (Hlast (S j') p); [lia|done|done].
  - apply (IH _ _ j); try done.
    + by rewrite length_insert.
    + intros j' p' Hj' Hp'. apply (Hlast (S j') p'); [lia|done].
Qed.

(** One value written at several positions. *)
Lemma assign_replicate a pos (v : T) (p : nat) :
  (p < length a)%nat -> p ∈ pos ->
  Np.assign a pos (replicate (length pos) v) !! p = Some v.
Proof.
  revert a. induction pos as [|q pos IH]; intros a Hlt Hin.
  - by apply not_elem_of_nil in Hin.
  - simpl. rewrite assign_cons.
    destruct (decide (p ∈ pos)) as [Hp|Hp].
    + apply IH; [by rewrite length_insert|done].
    + apply elem_of_cons in Hin as [->|Hin]; [|done].
      rewrite assign_other by done. by apply list_lookup_insert_eq.
Qed.

Lemma norm_index_out_of_bounds (n : nat) (i : Z) :
  i < - Z.of_nat n \/ Z.of_nat n <= i -> Np.norm_index n i = None.
Proof.
  intros Hi. unfold Np.norm_index.
  destruct (Z.ltb_spec i 0).
  - destruct (Z.ltb_spec (i + Z.of_nat n) 0); [done|lia].
  - destruct (Z.ltb_spec i 0); [lia|].
    destruct (Z.leb_spec (Z.of_nat n) i); [done|lia].
Qed.

Lemma setitem_numpy (h : gmap Np.loc (list T)) (l : Np.loc) a inds
    (vals : Np.values T) :
  h !! l = Some a ->
  Np.setitem (Np.NumpyArray l) inds vals h =
  match Np.setitem_items a inds vals with
  | Ok a' => (Ok tt, <[l := a']> h)
  | Raise e => (Raise e, h)
  end.
Proof.
  intros Hl. unfold Np.setitem, mbind, M_bind, get_world, lift, set_world.
  rewrite Hl. by destruct (Np.setitem_items a inds vals).
Qed.

End MorePutFacts.

(** X16.  An index out of bounds: on a NumPy array of [n] items, if some
    index is below [-n] or not below [n] (and the values broadcast against
    the indices), [put] raises [IndexError] in both halves of the module
    and writes nothing, not even at the indices that are in bounds. *)
Theorem put_out_of_bounds_writes_nothing {T : Type}
    (h : gmap Np.loc (list T)) (l : Np.loc) (a : list T) (inds : list Z)
    (vals : Np.values T) :
  h !! l = Some a ->
  is_Some (Np.broadcast_values (length inds) vals) ->
  Exists (fun i => i < - Z.of_nat (length a) \/ Z.of_nat (length a) <= i) inds ->
  Fallback.put (Np.NumpyArray l) inds vals h = (Raise IndexError, h) /\
  Jax.put (Np.NumpyArray l) inds vals h = (Raise IndexError, h).
Proof.
  intros Hl [vs Hvs] Hout.
  assert (Np.setitem_items a inds vals = Raise IndexError) as Hset.
  { unfold Np.setitem_items. rewrite Hvs.
    rewrite (proj2 (mapM_None (Np.norm_index (length a)) inds)); [done|].
    eapply Exists_impl; [exact Hout|].
    intros i Hi. by apply norm_index_out_of_bounds. }
  unfold Fallback.put, Jax.put, mbind, M_bind.
  by rewrite (setitem_numpy h l a) , Hset.
Qed.

Lemma put_out_of_bounds_writes_nothing_witness :
  Fallback.put (Np.NumpyArray 1%positive) [0; 3; 1] (Np.Many ["x"; "y"; "z"])
    {[ 1%positive := ["a"; "b"; "c"] ]}
  = (Raise IndexError, {[ 1%positive := ["a"; "b"; "c"] ]}) /\
  Jax.put (Np.NumpyArray 1%positive) [0; 3; 1] (Np.Many ["x"; "y"; "z"])
    {[ 1%positive := ["a"; "b"; "c"] ]}
  = (Raise IndexError, {[ 1%positive := ["a"; "b"; "c"] ]}).
Proof.
  apply (put_out_of_bounds_writes_nothing _ _ ["a"; "b"; "c"]); [done|by eexists|].
  apply Exists_cons_tl, Exists_cons_hd. simpl. lia.
Defined.

(** X17.  Repeated indices on a NumPy array: the assignments run in the
    order of the indices, so a position named several times ends with the
    value of its last occurrence; positions that are not named keep their
    item. *)
Theorem put_repeated_index_last_wins {T : Type}
    (h : gmap Np.loc (list T)) (l : Np.loc) (a : list T) (inds : list Z)
    (vs : list T) :
  let n := Z.of_nat (length a) in
  let pos := fun i : Z => Z.to_nat (if i <? 0 then i + n else i) in
  h !! l = Some a ->
  Forall (fun i => - n <= i < n) inds ->
  length vs = length inds ->
  exists a',
    Fallback.put (Np.NumpyArray l) inds (Np.Many vs) h
      = (Ok (Np.NumpyArray l), <[l := a']> h) /\
    length a' = length a /\
    (forall j i v, inds !! j = Some i -> vs !! j = Some v ->
       (forall j' i', (j < j')%nat -> inds !! j' = Some i' -> pos i' <> pos i) ->
       a' !! pos i = Some v) /\
    (forall p, p ∉ pos <$> inds -> a' !! p = a !! p).
Proof.
  intros n pos Hl Hin Hlen.
  exists (Np.assign a (pos <$> inds) vs).
  split; [|split; [apply assign_length|split]].
  - unfold Fallback.put, mbind, M_bind. rewrite (setitem_numpy h l a) by done.
    unfold Np.setitem_items.
    rewrite <- Hlen, broadcast_values_same_length.
    by rewrite norm_indices_in_bounds.
  - intros j i v Hi Hv Hlast. apply (assign_last _ _ _ j); try done.
    + rewrite Forall_forall in Hin.
      specialize (Hin i (list_elem_of_lookup_2 _ _ _ Hi)).
      unfold pos, n in *. destruct (Z.ltb_spec i 0); lia.
    + by rewrite list_lookup_fmap, Hi.
    + intros j' p' Hj' Hp'. rewrite list_lookup_fmap in Hp'.
      destruct (inds !! j') as [i'|] eqn:Hi'; [|done].
      simpl in Hp'. inversion Hp'; subst p'. by apply (Hlast j').
  - intros p Hp. by apply assign_other.
Qed.

Lemma put_repeated_index_last_wins_witness :
  exists a',
    Fallback.put (Np.NumpyArray 1%positive) [2; -1; 0] (Np.Many ["x"; "y"; "z"])
      {[ 1%positive := ["a"; "b"; "c"] ]}
      = (Ok (Np.NumpyArray 1%positive),
         <[1%positive := a']> {[ 1%positive := ["a"; "b"; "c"] ]}) /\
    a' !! 2%nat = Some "y".
Proof.
  destruct (put_repeated_index_last_wins
              {[ 1%positive := ["a"; "b"; "c"] ]} 1%positive ["a"; "b"; "c"]
              [2; -1; 0] ["x"; "y"; "z"])
    as (a' & Hput & _ & Hlast & _).
  - done.
  - simpl. repeat (apply Forall_cons; split; [lia|]). apply Forall_nil_2.
  - done.
  - exists a'. split; [done|].
    apply (Hlast 1%nat (-1) "y"); [done|done|].
    intros j' i' Hj' Hi'. destruct j' as [|[|[|j']]]; try lia; [|done].
    simpl in Hi'. inversion Hi'. simpl. lia.
Defined.

(** X18.  One value for several indices: [put] with a single value writes
    it at every position named by the indices (in bounds) and leaves every
    other position as it was, in both halves of the module. *)
Theorem put_single_value_broadcasts {T : Type} (a : list T) (inds : list Z)
    (v : T) :
  let n := Z.of_nat (length a) in
  let pos := fun i : Z => Z.to_nat (if i <? 0 then i + n else i) in
  Forall (fun i => - n <= i < n) inds ->
  exists a',
    (length a' = length a /\
     (forall i, i ∈ inds -> a' !! pos i = Some v) /\
     (forall p, p ∉ pos <$> inds -> a' !! p = a !! p)) /\
    (forall (h : gmap Np.loc (list T)) (l : Np.loc), h !! l = Some a ->
       Fallback.put (Np.NumpyArray l) inds (Np.One v) h
         = (Ok (Np.NumpyArray l), <[l := a']> h) /\
       Jax.put (Np.NumpyArray l) inds (Np.One v) h
         = (Ok (Np.NumpyArray l), <[l := a']> h)) /\
    (forall h : gmap Np.loc (list T),
       Jax.put (Np.JaxArray a) inds (Np.One v) h = (Ok (Np.JaxArray a'), h)).
Proof.
  intros n pos Hin.
  exists (Np.assign a (pos <$> inds) (replicate (length inds) v)).
  split; [split; [apply assign_length|split]|split].
  - intros i Hi. rewrite <- (length_fmap pos inds).
    apply assign_replicate; [|by apply list_elem_of_fmap_2].
    rewrite Forall_forall in Hin. specialize (Hin i Hi).
    unfold pos, n in *. destruct (Z.ltb_spec i 0); lia.
  - intros p Hp. by apply assign_other.
  - intros h l Hl.
    unfold Fallback.put, Jax.put, mbind, M_bind.
    rewrite (setitem_numpy h l a) by done.
    unfold Np.setitem_items. simpl. by rewrite norm_indices_in_bounds.
  - intros h. unfold Jax.put, Jnp.asarray, Jnp.at_set, mbind, M_bind, lift.
    destruct inds as [|i inds]; [done|].
    simpl. by rewrite scatter_pairs_in_bounds.
Qed.

Lemma put_single_value_broadcasts_witness :
  exists a',
    Jax.put (Np.JaxArray ["a"; "b"; "c"; "d"]) [0; -2] (Np.One "x")
      (∅ : gmap Np.loc (list string))
    = (Ok (Np.JaxArray a'), ∅) /\
    a' !! 0%nat = Some "x" /\ a' !! 2%nat = Some "x" /\ a' !! 1%nat = Some "b".
Proof.
  destruct (put_single_value_broadcasts ["a"; "b"; "c"; "d"] [0; -2] "x")
    as (a' & (_ & Hwritten & Hkept) & _ & Hjax).
  - simpl. repeat (apply Forall_cons; split; [lia|]). apply Forall_nil_2.
  - exists a'. split; [apply Hjax|]. split; [|split].
    + apply (Hwritten 0). apply list_elem_of_lookup. by exists 0%nat.
    + apply (Hwritten (-2)). apply list_elem_of_lookup. by exists 1%nat.
    + rewrite (Hkept 1%nat); [done|]. simpl.
      apply not_elem_of_cons. split; [lia|].
      apply not_elem_of_cons. split; [lia|apply not_elem_of_nil].
Defined.

(** ** The derivative rule, once more *)

Section MoreJvpFacts.
Context {T : Type} `{!Np.Scalar T} `{!Np.ExactScalar T}.
Implicit Types (x a : Np.ndarray T).

(** What [0 * a] adds depends on the shape of [a] alone. *)
Lemma plus_zero_term_shape x a a' :
  Np.shape a = Np.shape a' ->
  Np.plus x (Np.int_times 0 a) = Np.plus x (Np.int_times 0 a').
Proof.
  intros Hshape. unfold Np.plus, Np.ufunc2.
  change (Np.shape (Np.int_times 0 a)) with (Np.shape a).
  change (Np.shape (Np.int_times 0 a')) with (Np.shape a').
  rewrite <- Hshape.
  destruct (Np.broadcast_shapes (Np.shape x) (Np.shape a)) as [s|]; [|done].
  do 3 f_equal. unfold Np.broadcast_to. simpl.
  apply list_fmap_ext. intros i k _.
  by rewrite !item_int_times_zero.
Qed.

End MoreJvpFacts.

(** X19.  The tangents [ldot] and [mdot] matter by their shapes only: over
    a dtype with exact arithmetic, replacing them by any other tangents of
    the same shapes does not change what the rule returns (or raises). *)
Theorem jvp_rule_ignores_ldot_mdot_values {T : Type} `{!Np.Scalar T}
    `{!Np.ExactScalar T} (func : Jax.radial)
    (r l m rdot ldot mdot ldot' mdot' : Np.ndarray T) (dr : Z) :
  Np.shape ldot = Np.shape ldot' ->
  Np.shape mdot = Np.shape mdot' ->
  Jax.jvp (Jax.custom_jvp_with_jit func) dr (r, l, m) (rdot, ldot, mdot)
  = Jax.jvp (Jax.custom_jvp_with_jit func) dr (r, l, m) (rdot, ldot', mdot').
Proof.
  intros Hl Hm. unfold Jax.custom_jvp_with_jit, Jax.jit. simpl.
  destruct (func r l m dr) as [f|e]; [|done]. simpl.
  destruct (func r l m (dr + 1)) as [df|e]; [|done]. simpl.
  destruct (Jnp.multiply (Np.transpose df) rdot) as [t|e]; [|done]. simpl.
  unfold Jnp.plus. rewrite (plus_zero_term_shape _ ldot ldot' Hl).
  destruct (Jnp.shape_error (Np.plus (Np.transpose t) (Np.int_times 0 ldot')))
    as [t2|e]; [|done].
  simpl. by rewrite (plus_zero_term_shape _ mdot mdot' Hm).
Qed.

Lemma jvp_rule_ignores_ldot_mdot_values_witness :
  let func : Jax.radial := fun r l m dr =>
    Ok (Np.ufunc1 (Z.mul dr) (Np.mk_ndarray [3; 2]%nat [1; 2; 3; 4; 5; 6])) in
  Jax.jvp (Jax.custom_jvp_with_jit func) 1
    (Np.mk_ndarray [3%nat] [0; 1; 2],
     Np.mk_ndarray [2%nat] [4; 6], Np.mk_ndarray [2%nat] [0; 2])
    (Np.mk_ndarray [3%nat] [10; 100; 1000],
     Np.mk_ndarray [2%nat] [7; 7], Np.mk_ndarray [2%nat] [9; 9])
  = Jax.jvp (Jax.custom_jvp_with_jit func) 1
    (Np.mk_ndarray [3%nat] [0; 1; 2],
     Np.mk_ndarray [2%nat] [4; 6], Np.mk_ndarray [2%nat] [0; 2])
    (Np.mk_ndarray [3%nat] [10; 100; 1000],
     Np.mk_ndarray [2%nat] [-1; 50], Np.mk_ndarray [2%nat] [0; 8]).
Proof.
  intros func.
  exact (jvp_rule_ignores_ldot_mdot_values func _ _ _ _
           (Np.mk_ndarray [2%nat] [7; 7]) (Np.mk_ndarray [2%nat] [9; 9])
           (Np.mk_ndarray [2%nat] [-1; 50]) (Np.mk_ndarray [2%nat] [0; 8]) 1
           eq_refl eq_refl).
Defined.

(** X20.  The rule evaluates the function twice, first at [dr] and then at
    [dr + 1], and an exception of either evaluation leaves the rule as it
    was raised: nothing is computed from the tangents in that case. *)
Theorem jvp_rule_propagates_exceptions {T : Type} `{!Np.Scalar T}
    (func : Jax.radial) (r l m rdot ldot mdot : Np.ndarray T) (dr : Z) (e : exn) :
  (func r l m dr = Raise e ->
   Jax.jvp (Jax.custom_jvp_with_jit func) dr (r, l, m) (rdot, ldot, mdot)
   = Raise e) /\
  (forall f, func r l m dr = Ok f -> func r l m (dr + 1) = Raise e ->
   Jax.jvp (Jax.custom_jvp_with_jit func) dr (r, l, m) (rdot, ldot, mdot)
   = Raise e).
Proof.
  unfold Jax.custom_jvp_with_jit, Jax.jit. simpl. split.
  - by intros ->.
  - intros f -> Hdf. simpl. by rewrite Hdf.
Qed.

Lemma jvp_rule_propagates_exceptions_witness :
  let func : Jax.radial := fun r l m dr =>
    if dr <? 3 then Ok r else Raise ValueError in
  Jax.jvp (Jax.custom_jvp_with_jit func) 2
    (Np.mk_ndarray [1%nat] [5], Np.mk_ndarray [1%nat] [0], Np.mk_ndarray [1%nat] [0])
    (Np.mk_ndarray [1%nat] [1], Np.mk_ndarray [1%nat] [0], Np.mk_ndarray [1%nat] [0])
  = Raise ValueError.
Proof.
  intros func.
  exact (proj2 (jvp_rule_propagates_exceptions func
                  (Np.mk_ndarray [1%nat] [5]) (Np.mk_ndarray [1%nat] [0])
                  (Np.mk_ndarray [1%nat] [0]) (Np.mk_ndarray [1%nat] [1])
                  (Np.mk_ndarray [1%nat] [0]) (Np.mk_ndarray [1%nat] [0])
                  2 ValueError)
           (Np.mk_ndarray [1%nat] [5]) eq_refl eq_refl).
Defined.

(** ** [execute_on_cpu] with JAX *)

(** X22.  Wrapping twice is wrapping once, and a function that neither
    reads nor changes the default device is not changed by the wrapper. *)
Theorem execute_on_cpu_is_idempotent {W Args R : Type}
    (func : Args -> M (Jax.device_option * W) R) (f0 : Args -> M W R)
    (args : Args) (w : Jax.device_option * W) :
  Jax.execute_on_cpu (Jax.execute_on_cpu func) args w
  = Jax.execute_on_cpu func args w /\
  ((forall a d u, func a (d, u) = let '(r, u') := f0 a u in (r, (d, u'))) ->
   Jax.execute_on_cpu func args w = func args w).
Proof.
  split.
  - unfold Jax.execute_on_cpu, Jax.with_default_device. simpl.
    by destruct (func args _).
  - intros Hindep. unfold Jax.execute_on_cpu, Jax.with_default_device.
    destruct w as [[g t] u]. simpl. rewrite !Hindep. by destruct (f0 args u).
Qed.

Lemma execute_on_cpu_is_idempotent_witness :
  Jax.execute_on_cpu (fun (x : Z) (du : Jax.device_option * nat) =>
                        (Ok (x + 1), (fst du, S (snd du))))
    41 (Jax.mk_device_option (Some (Jax.GpuDevice 0)) None, 0%nat)
  = (Ok 42, (Jax.mk_device_option (Some (Jax.GpuDevice 0)) None, 1%nat)).
Proof.
  rewrite (proj2 (execute_on_cpu_is_idempotent
                    (fun (x : Z) (du : Jax.device_option * nat) =>
                       (Ok (x + 1), (fst du, S (snd du))))
                    (fun (x : Z) (u : nat) => (Ok (x + 1), S u))
                    41 (Jax.mk_device_option (Some (Jax.GpuDevice 0)) None, 0%nat)));
    done.
Defined.

(** The wrapper on functions that act on the setting: a function that
    reads the default device finds the first CPU device, the caller's
    thread-local value is back afterwards, and a global update made inside
    the function outlives the wrapper. *)
Example execute_on_cpu_runs :
  let start := (Jax.mk_device_option (Some (Jax.GpuDevice 0)) None, tt) in
  Jax.execute_on_cpu (fun _ : unit => Jax.current_default_device) tt start
    = (Ok (Some Jax.first_cpu), start) /\
  Jax.execute_on_cpu
    (fun (_ : unit) (w : Jax.device_option * unit) =>
       (Ok tt,
        (Jax.mk_device_option (Some (Jax.GpuDevice 1)) (Jax.local_device (fst w)),
         snd w)))
    tt start
    = (Ok tt, (Jax.mk_device_option (Some (Jax.GpuDevice 1)) None, tt)).
Proof. split; reflexivity. Qed.

(** ** [custom_jvp] without JAX *)

(** X23.  The fallback [custom_jvp] returns the function object that it
    was given.  Afterwards the attributes [defjvp] and [defjvps] of that
    object are callables that return [None] on any arguments (so a rule
    registered through them is dropped), every other attribute of the
    object is what it was, no other object has changed, and decorating the
    function a second time changes nothing more. *)
Theorem fallback_custom_jvp_returns_fun {V : Type}
    (h : gmap Np.loc (gmap string (Fallback.attribute V))) (fun_ : Np.loc)
    (attrs : gmap string (Fallback.attribute V)) (args : list V) (kw : kwargs V) :
  h !! fun_ = Some attrs ->
  exists attrs',
    Fallback.custom_jvp fun_ args kw h = (Ok fun_, <[fun_ := attrs']> h) /\
    (forall name a (rule_args : list V) (rule_kw : kwargs V),
       name = "defjvp" \/ name = "defjvps" ->
       attrs' !! name = Some a ->
       Fallback.call_attribute a rule_args rule_kw = Ok None) /\
    (forall name, name <> "defjvp" -> name <> "defjvps" ->
       attrs' !! name = attrs !! name) /\
    Fallback.custom_jvp fun_ args kw (<[fun_ := attrs']> h)
      = (Ok fun_, <[fun_ := attrs']> h).
Proof.
  intros Hfun.
  exists (<["defjvps" := Fallback.returns_None]>
            (<["defjvp" := Fallback.returns_None]> attrs)).
  split; [|split; [|split]].
  - unfold Fallback.custom_jvp, Fallback.setattr, mbind, M_bind, get_world,
      set_world. simpl. rewrite Hfun. simpl.
    rewrite lookup_insert_eq. simpl. by rewrite insert_insert_eq.
  - intros name a rule_args rule_kw [-> | ->] Ha; simplify_map_eq; done.
  - intros name H1 H2. by simplify_map_eq.
  - unfold Fallback.custom_jvp, Fallback.setattr, mbind, M_bind, get_world,
      set_world. simpl. rewrite lookup_insert_eq. simpl.
    rewrite lookup_insert_eq. simpl. rewrite !insert_insert_eq.
    assert (<["defjvps" := Fallback.returns_None]>
              (<["defjvp" := Fallback.returns_None]>
                 (<["defjvps" := Fallback.returns_None]>
                    (<["defjvp" := @Fallback.returns_None V]> attrs)))
            = <["defjvps" := Fallback.returns_None]>
                (<["defjvp" := Fallback.returns_None]> attrs)) as ->; [|done].
    apply map_eq. intros name.
    destruct (decide (name = "defjvps")) as [->|Hs];
      [by rewrite !lookup_insert_eq|].
    destruct (decide (name = "defjvp")) as [->|Hj];
      repeat first [rewrite lookup_insert_eq
                   |rewrite lookup_insert_ne by congruence]; done.
Qed.

Lemma fallback_custom_jvp_returns_fun_witness :
  exists attrs',
    Fallback.custom_jvp 1%positive ([] : list string) []
      {[ 1%positive := {[ "__name__" := Fallback.other_attribute "f" ]} ]}
    = (Ok 1%positive,
       <[1%positive := attrs']>
         {[ 1%positive := {[ "__name__" := Fallback.other_attribute "f" ]} ]}) /\
    attrs' !! "__name__" = Some (Fallback.other_attribute "f").
Proof.
  destruct (fallback_custom_jvp_returns_fun
              {[ 1%positive := {[ "__name__" := Fallback.other_attribute "f" ]} ]}
              1%positive {[ "__name__" := Fallback.other_attribute "f" ]}
              ([] : list string) [])
    as (attrs' & Hrun & _ & Hkept & _).
  - apply lookup_singleton_eq.
  - exists attrs'. split; [done|].
    rewrite Hkept by done. apply lookup_singleton_eq.
Defined.

(** ** The backend probe, once more *)

Section MoreProbeFacts.
Import Probe.
Variable set_device : string -> gmap string string -> gmap string string.
Implicit Types (E : env) (st : state) (e : exn).

(** What the body of the [with] statement can change, however it ends:
    the filters gain "ignore" in front; nothing is shown or printed;
    [use_jax] is not bound; [config] is as it was or has been through
    [set_device("cpu")]; and when the body returns, [jnp] is [jax.numpy]. *)
Lemma with_body_outcome E st r st1 :
  with_body set_device E st = (r, st1) ->
  filters st1 = Ignore :: filters st /\
  shown st1 = shown st /\ stdout st1 = stdout st /\
  use_jax st1 = use_jax st /\
  (config st1 = config st \/ config st1 = set_device "cpu" (config st)) /\
  (r = Ok tt -> jnp st1 = Some jax_numpy).
Proof.
  destruct E as [i1 i2 i3 i4 u g p]. destruct st as [c f s o j b].
  unfold with_body, gpu_check, external, simplefilter, modify, config_get,
    call_set_device, warn, raise, lift, mbind, M_bind, mret, M_ret.
  simpl.
  destruct i1, i2, i3, i4, u; simpl;
    try (intros [= <- <-]; simpl; split_and!; auto; done).
  case_bool_decide; simpl;
    [destruct g as [[|n]|e]; simpl|];
    destruct p; simpl; intros [= <- <-]; simpl; split_and!; auto; done.
Qed.

Lemma try_suite_outcome E st r st1 :
  try_suite set_device E st = (r, st1) ->
  filters st1 = filters st /\ shown st1 = shown st /\
  (config st1 = config st \/ config st1 = set_device "cpu" (config st)) /\
  match r with
  | Ok _ =>
      jnp st1 = Some jax_numpy /\ use_jax st1 = Some true /\
      stdout st1 = stdout st ++ [using_jax_backend]
  | Raise _ => stdout st1 = stdout st /\ use_jax st1 = use_jax st
  end.
Proof.
  unfold try_suite, catch_warnings, mbind, M_bind, modify, print.
  destruct (with_body set_device E st) as [r0 st0] eqn:Hbody.
  destruct (with_body_outcome E st r0 st0 Hbody)
    as (Hf & Hs & Ho & Hu & Hc & Hj).
  destruct r0 as [[]|e]; simpl; intros [= <- <-]; simpl; split_and!; auto.
  by rewrite Ho.
Qed.

End MoreProbeFacts.

(** X24.  The warning filters are the caller's again when the probe is
    left, by a return or by an exception: the "ignore" filter installed
    for the imports does not outlive the probe. *)
Theorem probe_restores_warning_filters
    (set_device : string -> gmap string string -> gmap string string)
    (E : Probe.env) (st : Probe.state) :
  Probe.filters (snd (Probe.backend_probe set_device E st)) = Probe.filters st.
Proof.
  unfold Probe.backend_probe, Probe.try_except.
  destruct (Probe.try_suite set_device E st) as [r st1] eqn:Hrun.
  destruct (try_suite_outcome set_device E st r st1 Hrun) as (Hf & _).
  destruct r as [[]|e]; [done|].
  destruct (is_ModuleNotFoundError e); [|done].
  rewrite except_suite_run. by destruct (Probe.current_action st1).
Qed.

(** X25.  When the probe returns, the module's two names agree: either
    [use_jax] is true and [jnp] is [jax.numpy], or [use_jax] is false and
    [jnp] is NumPy. *)
Theorem probe_binds_backend_consistently
    (set_device : string -> gmap string string -> gmap string string)
    (E : Probe.env) (st final : Probe.state) :
  Probe.backend_probe set_device E st = (Ok tt, final) ->
  (Probe.use_jax final = Some true /\ Probe.jnp final = Some Probe.jax_numpy) \/
  (Probe.use_jax final = Some false /\ Probe.jnp final = Some Probe.numpy).
Proof.
  unfold Probe.backend_probe, Probe.try_except.
  destruct (Probe.try_suite set_device E st) as [r st1] eqn:Hrun.
  destruct (try_suite_outcome set_device E st r st1 Hrun) as (_ & _ & _ & Hr).
  destruct r as [[]|e].
  - intros [= <-]. left. by destruct Hr as (? & ? & _).
  - destruct (is_ModuleNotFoundError e); [|done].
    rewrite except_suite_run.
    destruct (Probe.current_action st1); intros [= <-]; by right.
Qed.

Lemma probe_binds_backend_consistently_witness :
  (Some false = Some true /\ Some Probe.numpy = Some Probe.jax_numpy) \/
  (Some false = Some false /\ Some Probe.numpy = Some Probe.numpy).
Proof.
  exact (probe_binds_backend_consistently
           (fun kind c => <["kind" := kind]> c) jax_missing cpu_requested
           (Probe.mk_state (<["kind" := "cpu"]> (Probe.config cpu_requested)) []
              ["Failed to load JAX"] [Probe.using_numpy_backend]
              (Some Probe.numpy) (Some false))
           eq_refl).
Defined.

(** X26.  A failure of the GPU query is fatal.  When JAX is imported, the
    GPU was asked for and [jax.devices("gpu")] raises something other
    than a [ModuleNotFoundError], the probe raises that exception: [jnp]
    is bound to [jax.numpy] by then, [use_jax] is not bound, [config] is
    untouched and nothing has been shown or printed. *)
Theorem probe_gpu_query_failure_is_fatal
    (set_device : string -> gmap string string -> gmap string string)
    (E : Probe.env) (st : Probe.state) (e : exn) :
  Probe.import_jax E = None -> Probe.import_jax_numpy E = None ->
  Probe.import_jaxlib E = None -> Probe.import_jax_config E = None ->
  Probe.jax_config_update E = None ->
  Probe.config st !! "kind" = Some "gpu" ->
  Probe.jax_devices_gpu E = Raise e ->
  is_ModuleNotFoundError e = false ->
  Probe.backend_probe set_device E st =
  (Raise e,
   Probe.mk_state (Probe.config st) (Probe.filters st) (Probe.shown st)
     (Probe.stdout st) (Some Probe.jax_numpy) (Probe.use_jax st)).
Proof.
  intros H1 H2 H3 H4 H5 Hkind Hdev Hmnf. destruct st as [c f s o j u].
  simpl in Hkind.
  unfold Probe.backend_probe, Probe.try_except, Probe.try_suite,
    Probe.catch_warnings, Probe.with_body, mbind, M_bind.
  simpl. rewrite H1, H2, H3, H4, H5. simpl.
  unfold Probe.gpu_check, Probe.config_get, mbind, M_bind. simpl.
  rewrite Hkind, Hdev. simpl. by rewrite Hmnf.
Qed.

Lemma probe_gpu_query_failure_is_fatal_witness :
  Probe.backend_probe (fun kind c => <["kind" := kind]> c)
    (Probe.mk_env None None None None None (Raise RuntimeError) None)
    gpu_requested
  = (Raise RuntimeError,
     Probe.mk_state (Probe.config gpu_requested) [] [] []
       (Some Probe.jax_numpy) None).
Proof.
  by apply (probe_gpu_query_failure_is_fatal _
              (Probe.mk_env None None None None None (Raise RuntimeError) None)
              gpu_requested RuntimeError).
Defined.

(** X27.  The only warning that the probe can show is "Failed to load
    JAX": whatever the installation and the configuration, the warnings
    shown after the probe are those shown before, or those followed by
    that one. *)
Theorem probe_shows_at_most_the_fallback_warning
    (set_device : string -> gmap string string -> gmap string string)
    (E : Probe.env) (st : Probe.state) :
  let final := snd (Probe.backend_probe set_device E st) in
  Probe.shown final = Probe.shown st \/
  Probe.shown final = Probe.shown st ++ ["Failed to load JAX"].
Proof.
  unfold Probe.backend_probe, Probe.try_except. simpl.
  destruct (Probe.try_suite set_device E st) as [r st1] eqn:Hrun.
  destruct (try_suite_outcome set_device E st r st1 Hrun) as (_ & Hs & _).
  destruct r as [[]|e]; [by left|].
  destruct (is_ModuleNotFoundError e); [|by left].
  rewrite except_suite_run.
  destruct (Probe.current_action st1); simpl; rewrite Hs; auto.
Qed.

(** What a probe that returns has printed and bound. *)
Lemma probe_return_outcome
    (set_device : string -> gmap string string -> gmap string string)
    (E : Probe.env) (st final : Probe.state) :
  Probe.backend_probe set_device E st = (Ok tt, final) ->
  exists backend,
    Probe.stdout final = Probe.stdout st ++ [backend] /\
    ((backend = Probe.using_jax_backend /\ Probe.use_jax final = Some true) \/
     (backend = Probe.using_numpy_backend /\ Probe.use_jax final = Some false)).
Proof.
  unfold Probe.backend_probe, Probe.try_except.
  destruct (Probe.try_suite set_device E st) as [r st1] eqn:Hrun.
  destruct (try_suite_outcome set_device E st r st1 Hrun)
    as (_ & _ & _ & Hr).
  destruct r as [[]|e].
  - destruct Hr as (_ & Hu & Ho). intros [= <-].
    exists Probe.using_jax_backend. auto.
  - destruct Hr as [Ho Hu].
    destruct (is_ModuleNotFoundError e); [|done].
    rewrite except_suite_run.
    destruct (Probe.current_action st1); intros [= <-]; simpl;
      exists Probe.using_numpy_backend; rewrite Ho; auto.
Qed.

(** X28.  What the module prints when its top-level code finishes without
    an exception: one line for the backend, which says JAX exactly when
    [use_jax] is true, then one line for the device, with the [device]
    and [avail_mem] entries that [config] holds at the end; [config] then
    has an [avail_mem] entry, since formatting [None] with [{:.2f}]
    raises. *)
Theorem module_prints_backend_then_device
    (set_device : string -> gmap string string -> gmap string string)
    (E : Probe.env) (st final : Probe.state) :
  Probe.module_body set_device E st = (Ok tt, final) ->
  exists backend mem,
    Probe.config final !! "avail_mem" = Some mem /\
    Probe.stdout final =
      Probe.stdout st ++
      [backend; Probe.using_device (Probe.config final !! "device") (Some mem)] /\
    ((backend = Probe.using_jax_backend /\ Probe.use_jax final = Some true) \/
     (backend = Probe.using_numpy_backend /\ Probe.use_jax final = Some false)).
Proof.
  unfold Probe.module_body, mbind, M_bind.
  destruct (Probe.default_device set_device st) as [r0 st0] eqn:Hdef.
  assert (r0 = Ok tt /\ Probe.stdout st0 = Probe.stdout st) as [-> Ho0].
  { unfold Probe.default_device, Probe.config_get, Probe.call_set_device,
      Probe.modify, mbind, M_bind in Hdef.
    destruct (Probe.config st !! "device"); inversion Hdef; by subst. }
  destruct (Probe.backend_probe set_device E st0) as [r st2] eqn:Hprobe.
  destruct r as [[]|e]; [|done].
  destruct (probe_return_outcome set_device E st0 st2 Hprobe)
    as (backend & Ho & Hb).
  unfold Probe.config_get, Probe.print, Probe.modify, raise.
  destruct (Probe.config st2 !! "avail_mem") as [mem|] eqn:Hmem; [|done].
  intros [= <-]. simpl. exists backend, mem.
  split; [done|]. split; [|done].
  by rewrite Ho, Ho0, <- app_assoc.
Qed.

Lemma module_prints_backend_then_device_witness :
  let set_device := fun (kind : string) (c : gmap string string) =>
    <["avail_mem" := "15.62"]> (<["kind" := kind]> c) in
  let final :=
    Probe.mk_state (set_device "cpu" (Probe.config cpu_requested)) []
      ["Failed to load JAX"]
      [Probe.using_numpy_backend;
       Probe.using_device (Some "cpu") (Some "15.62")]
      (Some Probe.numpy) (Some false) in
  exists backend mem,
    Probe.config final !! "avail_mem" = Some mem /\
    Probe.stdout final =
      Probe.stdout cpu_requested ++
      [backend; Probe.using_device (Probe.config final !! "device") (Some mem)] /\
    ((backend = Probe.using_jax_backend /\ Probe.use_jax final = Some true) \/
     (backend = Probe.using_numpy_backend /\ Probe.use_jax final = Some false)).
Proof.
  intros set_device final.
  apply (module_prints_backend_then_device set_device jax_missing cpu_requested).
  reflexivity.
Defined.

(** Without an [avail_mem] entry the last line raises: the backend line is
    printed, the device line is not. *)
Example module_without_avail_mem_raises :
  Probe.module_body (fun kind c => <["kind" := kind]> c) jax_missing cpu_requested
  = (Raise TypeError,
     Probe.mk_state {[ "device" := "cpu"; "kind" := "cpu" ]} []
       ["Failed to load JAX"] [Probe.using_numpy_backend]
       (Some Probe.numpy) (Some false)).
Proof. reflexivity. Qed.
